(** * pypocketfft: the Python front end of pocketfft

    A shallow embedding of [scipy/fft/_pocketfft/pypocketfft.cxx]: axis
    resolution, normalisation factors, output-buffer resolution, the six
    transform entry points with their element-type dispatch, the two
    mirror-iteration post-passes (Hermitian completion and Hartley folding)
    and the argument table of the module definition.

    Conventions.
    - [size_t] and [ptrdiff_t] values are integers in [Z]; the places where
      the source computes in [size_t] have the reduction modulo [2^64]
      written out ([wrap]).
    - [std::vector] is [list]; [shape_t] and [stride_t] are [list Z].
    - A C++ exception is the [Throw] outcome of the [result] monad.
    - The transform kernels of [pocketfft_hdronly.h] are parameters of the
      development: the front end only forwards arguments to them. *)

From Stdlib Require Import String ZArith List Bool Lia Reals Permutation.
Import ListNotations.
Local Open Scope string_scope.
Local Open Scope Z_scope.

Set Implicit Arguments.

(** ** Exceptions and the result monad *)

Inductive exn : Type :=
| runtime_error (what : string)
| invalid_argument (what : string)
| cast_error (what : string)
| type_error (what : string)
| undefined_behaviour (what : string).

Inductive result (A : Type) : Type :=
| Ok (a : A)
| Throw (e : exn).

Arguments Ok {A} a.
Arguments Throw {A} e.

Definition bind {A B : Type} (m : result A) (k : A -> result B) : result B :=
  match m with
  | Ok a => k a
  | Throw e => Throw e
  end.

Notation "'let*' x ':=' m 'in' k" := (bind m (fun x => k))
  (at level 10, x name, m at level 100, k at level 200).

Definition is_ok {A : Type} (m : result A) : bool :=
  match m with Ok _ => true | Throw _ => false end.

(** ** Machine integers *)

Definition size_t_modulus : Z := 2 ^ 64.
Definition wrap (x : Z) : Z := x mod size_t_modulus.
Definition ptrdiff_max : Z := 2 ^ 63 - 1.

Definition shape_t := list Z.
Definition stride_t := list Z.

(** [v[i]] on a vector; the source never indexes out of range after
    [makeaxes] has validated the axes, the model says so explicitly. *)
Definition at_index (v : list Z) (i : Z) : result Z :=
  if (0 <=? i) && (i <? Z.of_nat (length v))
  then Ok (nth (Z.to_nat i) v 0)
  else Throw (undefined_behaviour "vector index out of range").

(** [v[i] = x] *)
Fixpoint set_nth (v : list Z) (i : nat) (x : Z) : list Z :=
  match v, i with
  | [], _ => []
  | _ :: t, O => x :: t
  | h :: t, S j => h :: set_nth t j x
  end.

Definition set_index (v : list Z) (i x : Z) : result (list Z) :=
  if (0 <=? i) && (i <? Z.of_nat (length v))
  then Ok (set_nth v (Z.to_nat i) x)
  else Throw (undefined_behaviour "vector index out of range").

(** [v.back()] *)
Definition back (v : list Z) : result Z :=
  match v with
  | [] => Throw (undefined_behaviour "back() of an empty vector")
  | _ => Ok (last v 0)
  end.

(** [0, 1, ..., n-1] *)
Definition iota (n : Z) : list Z := map Z.of_nat (seq 0 (Z.to_nat n)).

(** ** Element types *)

(** The template parameter [T]: [double], [float] or [long double]. *)
Inductive prec : Type := Pdouble | Pfloat | Pldbl.

(** A NumPy dtype: the six the module names, or any other one, of which
    only [kind() == 'c'] is observed. *)
Inductive dtype : Type :=
| Real (p : prec)
| Complex (p : prec)
| Unsupported (kind_c : bool).

Definition c64 := Complex Pfloat.
Definition c128 := Complex Pdouble.
Definition clong := Complex Pldbl.
Definition f32 := Real Pfloat.
Definition f64 := Real Pdouble.
Definition flong := Real Pldbl.

Definition prec_eqb (p q : prec) : bool :=
  match p, q with
  | Pdouble, Pdouble | Pfloat, Pfloat | Pldbl, Pldbl => true
  | _, _ => false
  end.

(** [dtype.is(T)] *)
Definition dtype_is (d e : dtype) : bool :=
  match d, e with
  | Real p, Real q => prec_eqb p q
  | Complex p, Complex q => prec_eqb p q
  | _, _ => false
  end.

(** [dtype.kind() == 'c'] *)
Definition kind_is_c (d : dtype) : bool :=
  match d with
  | Complex _ => true
  | Real _ => false
  | Unsupported k => k
  end.

(** The three instantiations are kept apart: [ldbl_t] is [long double], or
    [double] where [long double] offers no more precision, and the front end
    is the same code for each. *)
Definition ldbl_t : prec := Pldbl.

(** ** Normalisation factors as values *)

(** The value of type [T] that [norm_fct] returns, kept as the expression
    the source computes it with. *)
Inductive fct_t : Type :=
| fct_one                    (* T(1) *)
| fct_inv (N : Z)            (* T(1/ldbl_t(N)) *)
| fct_inv_sqrt (N : Z).      (* T(1/sqrt(ldbl_t(N))) *)

(** The exact real number that the expression of a factor denotes, before
    it is rounded: the value [norm_fct] returns is this number computed in
    [ldbl_t] and converted to [T], so an identity between these reals need
    not hold between the values returned. *)
Definition fct_value (f : fct_t) : R :=
  match f with
  | fct_one => 1%R
  | fct_inv N => (1 / IZR N)%R
  | fct_inv_sqrt N => (1 / sqrt (IZR N))%R
  end.

(** ** The platform: scalars, allocator and kernels *)

(** What the front end takes from its environment.
    - [scalar] with [s_add], [s_sub], [s_neg]: the floating-point values and
      the three operations the post-passes apply to them.
    - [sizeof_ldbl_t]: the one item size that depends on the platform.
    - [uninit_real], [uninit_cplx]: the contents of a block that pybind11's
      [array_t<T>(shape)] constructor obtains: it passes no data pointer to
      [PyArray_NewFromDescr], which allocates and does not initialise.
    - the five kernels of [pocketfft_hdronly.h], as functions from the
      memory they read (and the output memory they start from) to the output
      memory they leave, or to an exception. *)
Class Platform : Type := {
  scalar : Type;
  s_add : scalar -> scalar -> scalar;
  s_sub : scalar -> scalar -> scalar;
  s_neg : scalar -> scalar;
  sizeof_ldbl_t : Z;
  uninit_real : prec -> shape_t -> Z -> scalar;
  uninit_cplx : prec -> shape_t -> Z -> scalar * scalar;
  pocketfft_c2c :
    prec -> shape_t -> stride_t -> stride_t -> shape_t -> bool ->
    (Z -> scalar * scalar) -> (Z -> scalar * scalar) -> fct_t -> Z ->
    result (Z -> scalar * scalar);
  pocketfft_r2c :
    prec -> shape_t -> stride_t -> stride_t -> shape_t -> bool ->
    (Z -> scalar) -> (Z -> scalar * scalar) -> fct_t -> Z ->
    result (Z -> scalar * scalar);
  pocketfft_c2r :
    prec -> shape_t -> stride_t -> stride_t -> shape_t -> bool ->
    (Z -> scalar * scalar) -> (Z -> scalar) -> fct_t -> Z ->
    result (Z -> scalar);
  pocketfft_r2r_fftpack :
    prec -> shape_t -> stride_t -> stride_t -> shape_t -> bool -> bool ->
    (Z -> scalar) -> (Z -> scalar) -> fct_t -> Z ->
    result (Z -> scalar);
  pocketfft_r2r_separable_hartley :
    prec -> shape_t -> stride_t -> stride_t -> shape_t ->
    (Z -> scalar) -> (Z -> scalar) -> fct_t -> Z ->
    result (Z -> scalar)
}.

Section FrontEnd.

Context {P : Platform}.

(** [complex<T>] / [cmplx<T>]: real and imaginary part. *)
Definition cmplx : Type := (scalar * scalar)%type.

Definition conj (v : cmplx) : cmplx := (fst v, s_neg (snd v)).

(** Memory reachable from a data pointer, by byte offset of the element. *)
Definition rmem : Type := Z -> scalar.
Definition cmem : Type := Z -> cmplx.

Definition store {A : Type} (m : Z -> A) (ofs : Z) (v : A) : Z -> A :=
  fun o => if o =? ofs then v else m o.

(** ** Arrays and Python objects *)

(** What an array holds: elements of one of the six supported types, or of
    another dtype (never read by this module). *)
Inductive payload : Type :=
| real_data (p : prec) (d : rmem)
| cplx_data (p : prec) (d : cmem)
| other_data (kind_c : bool).

(** [py::array] *)
Record array : Type := mk_array {
  arr_shape : shape_t;
  arr_strides : stride_t;
  arr_payload : payload
}.

Definition arr_dtype (a : array) : dtype :=
  match arr_payload a with
  | real_data p _ => Real p
  | cplx_data p _ => Complex p
  | other_data k => Unsupported k
  end.

Definition ndim (a : array) : Z := Z.of_nat (length (arr_shape a)).

(** [py::object], as far as the module looks at its arguments. *)
Inductive pyobject : Type :=
| PyNone
| PyBool (b : bool)
| PyInt (n : Z)
| PyList (l : list Z)
| PyArray (a : array)
| PyOther.

Definition is_None (o : pyobject) : bool :=
  match o with PyNone => true | _ => false end.

Definition copy_shape (arr : array) : shape_t := arr_shape arr.

Definition copy_strides (arr : array) : stride_t := arr_strides arr.

(** [reinterpret_cast<const T *>(in.data())]: the dispatch has checked the
    dtype before any of these is reached. *)
Definition real_view (T : prec) (a : array) : result rmem :=
  match arr_payload a with
  | real_data p d =>
      if prec_eqb p T then Ok d
      else Throw (undefined_behaviour "data of another element type")
  | _ => Throw (undefined_behaviour "data of another element type")
  end.

Definition cplx_view (T : prec) (a : array) : result cmem :=
  match arr_payload a with
  | cplx_data p d =>
      if prec_eqb p T then Ok d
      else Throw (undefined_behaviour "data of another element type")
  | _ => Throw (undefined_behaviour "data of another element type")
  end.

(** The array [res] after the writes through [d_out]. *)
Definition with_real (res : array) (T : prec) (d : rmem) : array :=
  mk_array (arr_shape res) (arr_strides res) (real_data T d).

Definition with_cplx (res : array) (T : prec) (d : cmem) : array :=
  mk_array (arr_shape res) (arr_strides res) (cplx_data T d).

(** ** Axis resolution *)

(** The loop of [makeaxes] over the caller's list: each negative entry gets
    [ndim] added, and the first entry out of range throws. *)
Fixpoint normalize_axes (ndim : Z) (tmp : list Z) : result (list Z) :=
  match tmp with
  | [] => Ok []
  | sz :: rest =>
      let sz := if sz <? 0 then sz + ndim else sz in
      if (sz >=? ndim) || (sz <? 0)
      then Throw (invalid_argument "axes exceeds dimensionality of output")
      else let* rest' := normalize_axes ndim rest in Ok (sz :: rest')
  end.

(** [axes.cast<std::vector<ptrdiff_t>>()]: a list of integers that fit. *)
Definition cast_vector_ptrdiff (o : pyobject) : result (list Z) :=
  match o with
  | PyList l =>
      if forallb (fun z => (- ptrdiff_max - 1 <=? z) && (z <=? ptrdiff_max)) l
      then Ok l
      else Throw (cast_error "Unable to cast Python instance to C++ type")
  | _ => Throw (cast_error "Unable to cast Python instance to C++ type")
  end.

(** [makeaxes(in, axes)] *)
Definition makeaxes (in_ : array) (axes : pyobject) : result shape_t :=
  if is_None axes then Ok (iota (ndim in_))
  else
    let* tmp := cast_vector_ptrdiff axes in
    let ndim := ndim in_ in
    if (Z.of_nat (length tmp) >? ndim) || (Z.of_nat (length tmp) =? 0)
    then Throw (runtime_error "bad axes argument")
    else normalize_axes ndim tmp.

(** ** Normalisation factor *)

(** [norm_fct<T>(int inorm, size_t N)] *)
Definition norm_fct_N (inorm : Z) (N : Z) : result fct_t :=
  if inorm =? 0 then Ok fct_one
  else if inorm =? 2 then Ok (fct_inv N)
  else if inorm =? 1 then Ok (fct_inv_sqrt N)
  else Throw (invalid_argument "invalid value for inorm (must be 0, 1, or 2)").

(** [for (auto a: axes) N *= shape[a];] in [size_t] arithmetic *)
Fixpoint axes_product (shape : shape_t) (axes : shape_t) (N : Z) : result Z :=
  match axes with
  | [] => Ok N
  | a :: rest =>
      let* n := at_index shape a in
      axes_product shape rest (wrap (N * n))
  end.

(** [norm_fct<T>(int inorm, const shape_t &shape, const shape_t &axes)] *)
Definition norm_fct (inorm : Z) (shape axes : shape_t) : result fct_t :=
  if inorm =? 0 then Ok fct_one
  else
    let* N := axes_product shape axes 1 in
    norm_fct_N inorm N.

(** ** Output buffer resolution *)

Definition sizeof_T (T : prec) : Z :=
  match T with
  | Pfloat => 4
  | Pdouble => 8
  | Pldbl => sizeof_ldbl_t
  end.

Definition itemsize (et : dtype) : Z :=
  match et with
  | Real T => sizeof_T T
  | Complex T => 2 * sizeof_T T
  | Unsupported _ => 0
  end.

(** C-contiguous strides, in bytes, as pybind11 computes them for a new
    array: the last stride is the item size, each earlier one the next
    stride times the next length. *)
Fixpoint c_strides (isz : Z) (shape : shape_t) : stride_t :=
  match shape with
  | [] => []
  | _ :: rest => (isz * fold_right Z.mul 1 rest) :: c_strides isz rest
  end.

(** [py::array_t<X>(dims)]: a new C-contiguous array of element type [X].
    Called with a shape alone, the constructor passes a null data pointer to
    NumPy's [PyArray_NewFromDescr], which allocates the block and leaves its
    contents as they are (what [numpy.empty] does); the contents are the
    platform's [uninit_real] / [uninit_cplx]. *)
Definition array_t_new (et : dtype) (dims : shape_t) : array :=
  mk_array dims (c_strides (itemsize et) dims)
    match et with
    | Real T => real_data T (uninit_real T dims)
    | Complex T => cplx_data T (uninit_cplx T dims)
    | Unsupported k => other_data k
    end.

(** What [out_.cast<py::array_t<X>>()] hands back: the object it was given,
    when that is already an array of element type [X], and otherwise a new
    object made by conversion. *)
Inductive cast_outcome : Type :=
| same_object (a : array)
| new_object.

Definition cast_array_t (et : dtype) (o : pyobject) : result cast_outcome :=
  match o with
  | PyArray a =>
      if dtype_is (arr_dtype a) et then Ok (same_object a) else Ok new_object
  | PyBool _ | PyInt _ | PyList _ => Ok new_object
  | PyNone | PyOther =>
      Throw (cast_error "Unable to cast Python instance to C++ type")
  end.

(** [prepare_output<X>(out_, dims)]; [tmp.is(out_)] holds exactly when the
    cast made no new object. *)
Definition prepare_output (et : dtype) (out_ : pyobject) (dims : shape_t)
  : result array :=
  if is_None out_ then Ok (array_t_new et dims)
  else
    let* tmp := cast_array_t et out_ in
    match tmp with
    | new_object =>
        Throw (runtime_error "unexpected data type for output array")
    | same_object a => Ok a
    end.

(** ** Element-type dispatch *)

(** The macro [DISPATCH(arr, T1, T2, T3, func, args)]. *)
Definition DISPATCH {A : Type} (arr : array) (T1 T2 T3 : dtype)
  (func : prec -> result A) : result A :=
  let dtype := arr_dtype arr in
  if dtype_is dtype T1 then func Pdouble
  else if dtype_is dtype T2 then func Pfloat
  else if dtype_is dtype T3 then func ldbl_t
  else Throw (runtime_error "unsupported data type").

(** ** Array views and iterators of the kernel library *)

(** [arr_info]: shape and strides of an [ndarr] / [cndarr]. *)
Record arr_info : Type := mk_arr_info {
  ai_shape : shape_t;
  ai_stride : stride_t
}.

(** Modelled from the spec: the iterators [simple_iter] and [rev_iter] are
    declared in [pocketfft_hdronly.h], which is not among the sources. The
    spec has a forward iterator walk a view in natural order and a mirror
    iterator walk, in the same order, the extent whose last transformed axis
    is cut to [floor(n/2) + 1]; the mirror offset of an index reflects the
    coordinate [i] of every transformed axis to [(length - i) mod length].
    [positions shp] lists the indices of the extent [shp] in natural order,
    the last axis running fastest. *)
Fixpoint positions (shp : shape_t) : list (list Z) :=
  match shp with
  | [] => [[]]
  | n :: rest => flat_map (fun i => map (cons i) (positions rest)) (iota n)
  end.

(** Modelled from the spec: the byte offset of an index in a strided view,
    the sum of coordinate times stride. *)
Fixpoint offset (str : stride_t) (pos : list Z) : Z :=
  match str, pos with
  | s :: str', i :: pos' => i * s + offset str' pos'
  | _, _ => 0
  end.

(** Modelled from the spec: the reflected index, coordinate by coordinate. *)
Fixpoint mirror (shape : shape_t) (rev_axis : list bool) (pos : list Z)
  : list Z :=
  match shape, rev_axis, pos with
  | n :: shape', r :: rev', i :: pos' =>
      (if r then (n - i) mod n else i) :: mirror shape' rev' pos'
  | _, _, _ => []
  end.

(** Modelled from the spec: which axes of a rank-[nd] view are among the
    transformed [axes], the ones the mirror reflects. *)
Definition rev_axes (nd : nat) (axes : shape_t) : list bool :=
  map (fun k => existsb (Z.eqb (Z.of_nat k)) axes) (seq 0 nd).

(** Modelled from the spec: [simple_iter], the forward iterator; it holds
    the indices still to visit. *)
Record simple_iter : Type := mk_simple_iter {
  si_arr : arr_info;
  si_todo : list (list Z)
}.

(** Modelled from the spec: [simple_iter iin(atmp)] starts at the first
    index of the view's own extent. *)
Definition simple_iter_new (arr : arr_info) : simple_iter :=
  mk_simple_iter arr (positions (ai_shape arr)).

(** Modelled from the spec: [iin.remaining()], the number of indices still
    to visit. *)
Definition si_remaining (it : simple_iter) : Z :=
  Z.of_nat (length (si_todo it)).

(** Modelled from the spec: [iin.ofs()], the offset of the current index. *)
Definition si_ofs (it : simple_iter) : Z :=
  offset (ai_stride (si_arr it)) (hd [] (si_todo it)).

(** Modelled from the spec: [iin.advance()], on to the next index. *)
Definition si_advance (it : simple_iter) : simple_iter :=
  mk_simple_iter (si_arr it) (tl (si_todo it)).

(** Modelled from the spec: [rev_iter], the mirror iterator over the
    forward half of a view. *)
Record rev_iter : Type := mk_rev_iter {
  ri_arr : arr_info;
  ri_rev_axis : list bool;
  ri_todo : list (list Z)
}.

(** Modelled from the spec: [rev_iter iter(arr, axes)] starts at the first
    index of the extent whose axis [axes.back()] is cut to
    [floor(n/2) + 1]. *)
Definition rev_iter_new (arr : arr_info) (axes : shape_t) : result rev_iter :=
  let* last_axis := back axes in
  let* n := at_index (ai_shape arr) last_axis in
  let last_size := n / 2 + 1 in
  let* shp := set_index (ai_shape arr) last_axis last_size in
  Ok (mk_rev_iter arr (rev_axes (length (ai_shape arr)) axes) (positions shp)).

(** Modelled from the spec: [iter.remaining()], the number of indices
    still to visit. *)
Definition remaining (it : rev_iter) : Z :=
  Z.of_nat (length (ri_todo it)).

(** Modelled from the spec: [iter.ofs()], the offset of the current
    index. *)
Definition ofs (it : rev_iter) : Z :=
  offset (ai_stride (ri_arr it)) (hd [] (ri_todo it)).

(** Modelled from the spec: [iter.rev_ofs()], the offset of the mirror
    image of the current index. *)
Definition rev_ofs (it : rev_iter) : Z :=
  offset (ai_stride (ri_arr it))
    (mirror (ai_shape (ri_arr it)) (ri_rev_axis it) (hd [] (ri_todo it))).

(** Modelled from the spec: [iter.advance()], on to the next index. *)
Definition advance (it : rev_iter) : rev_iter :=
  mk_rev_iter (ri_arr it) (ri_rev_axis it) (tl (ri_todo it)).

(** The loops below carry a bound on their iterations; one that is given
    as many as its iterator has elements left returns ([Some]). [None] is the
    loop cut short, which the theorems exclude. *)
Definition completed {A : Type} (r : option A) : result A :=
  match r with
  | Some a => Ok a
  | None => Throw (undefined_behaviour "loop did not terminate")
  end.

(** ** Complex transform *)

Definition c2c_internal (T : prec) (in_ : array) (axes_ : pyobject)
  (forward : bool) (inorm : Z) (out_ : pyobject) (nthreads : Z)
  : result array :=
  let* axes := makeaxes in_ axes_ in
  let dims := copy_shape in_ in
  let* res := prepare_output (Complex T) out_ dims in
  let s_in := copy_strides in_ in
  let s_out := copy_strides res in
  let* d_in := cplx_view T in_ in
  let* d_out := cplx_view T res in
  let* fct := norm_fct inorm dims axes in
  let* d_out :=
    pocketfft_c2c T dims s_in s_out axes forward d_in d_out fct nthreads in
  Ok (with_cplx res T d_out).

(** The loop of [c2c_sym_internal]:
    [while (iter.remaining()>0)
       { auto v = ares[iter.ofs()]; ares[iter.rev_ofs()] = conj(v);
         iter.advance(); }] *)
Fixpoint fill_second_half (fuel : nat) (iter : rev_iter) (ares : cmem)
  : option cmem :=
  if remaining iter >? 0 then
    match fuel with
    | O => None
    | S fuel' =>
        let v := ares (ofs iter) in
        let ares := store ares (rev_ofs iter) (conj v) in
        fill_second_half fuel' (advance iter) ares
    end
  else Some ares.

Definition c2c_sym_internal (T : prec) (in_ : array) (axes_ : pyobject)
  (forward : bool) (inorm : Z) (out_ : pyobject) (nthreads : Z)
  : result array :=
  let* axes := makeaxes in_ axes_ in
  let dims := copy_shape in_ in
  let* res := prepare_output (Complex T) out_ dims in
  let s_in := copy_strides in_ in
  let s_out := copy_strides res in
  let* d_in := real_view T in_ in
  let* d_out := cplx_view T res in
  let* fct := norm_fct inorm dims axes in
  let* d_out :=
    pocketfft_r2c T dims s_in s_out axes forward d_in d_out fct nthreads in
  let ares := mk_arr_info dims s_out in
  let* iter := rev_iter_new ares axes in
  let* d_out :=
    completed (fill_second_half (Z.to_nat (remaining iter)) iter d_out) in
  Ok (with_cplx res T d_out).

Definition c2c (a : array) (axes_ : pyobject) (forward : bool) (inorm : Z)
  (out_ : pyobject) (nthreads : Z) : result array :=
  if kind_is_c (arr_dtype a)
  then DISPATCH a c128 c64 clong
         (fun T => c2c_internal T a axes_ forward inorm out_ nthreads)
  else DISPATCH a f64 f32 flong
         (fun T => c2c_sym_internal T a axes_ forward inorm out_ nthreads).

(** ** Real-input transform *)

Definition r2c_internal (T : prec) (in_ : array) (axes_ : pyobject)
  (forward : bool) (inorm : Z) (out_ : pyobject) (nthreads : Z)
  : result array :=
  let* axes := makeaxes in_ axes_ in
  let dims_in := copy_shape in_ in
  let dims_out := dims_in in
  let* last := back axes in
  let* n := at_index dims_out last in
  let* dims_out := set_index dims_out last (wrap (Z.shiftr n 1 + 1)) in
  let* res := prepare_output (Complex T) out_ dims_out in
  let s_in := copy_strides in_ in
  let s_out := copy_strides res in
  let* d_in := real_view T in_ in
  let* d_out := cplx_view T res in
  let* fct := norm_fct inorm dims_in axes in
  let* d_out :=
    pocketfft_r2c T dims_in s_in s_out axes forward d_in d_out fct nthreads in
  Ok (with_cplx res T d_out).

Definition r2c (in_ : array) (axes_ : pyobject) (forward : bool) (inorm : Z)
  (out_ : pyobject) (nthreads : Z) : result array :=
  DISPATCH in_ f64 f32 flong
    (fun T => r2c_internal T in_ axes_ forward inorm out_ nthreads).

(** ** FFTPACK-ordered real transform *)

Definition r2r_fftpack_internal (T : prec) (in_ : array) (axes_ : pyobject)
  (real2hermitian forward : bool) (inorm : Z) (out_ : pyobject) (nthreads : Z)
  : result array :=
  let* axes := makeaxes in_ axes_ in
  let dims := copy_shape in_ in
  let* res := prepare_output (Real T) out_ dims in
  let s_in := copy_strides in_ in
  let s_out := copy_strides res in
  let* d_in := real_view T in_ in
  let* d_out := real_view T res in
  let* fct := norm_fct inorm dims axes in
  let* d_out :=
    pocketfft_r2r_fftpack T dims s_in s_out axes real2hermitian forward
      d_in d_out fct nthreads in
  Ok (with_real res T d_out).

Definition r2r_fftpack (in_ : array) (axes_ : pyobject)
  (real2hermitian forward : bool) (inorm : Z) (out_ : pyobject) (nthreads : Z)
  : result array :=
  DISPATCH in_ f64 f32 flong
    (fun T => r2r_fftpack_internal T in_ axes_ real2hermitian forward inorm
                out_ nthreads).

(** ** Real-output inverse transform *)

(** Lines 237-239 of [c2r_internal], on [n = dims_in[axis]]:
    [if (lastsize==0) lastsize=2*dims_in[axis]-1;
     if ((lastsize/2) + 1 != dims_in[axis]) throw runtime_error("bad lastsize");]
    in [size_t] arithmetic; the result is the [lastsize] that goes on. *)
Definition resolve_lastsize (lastsize n : Z) : result Z :=
  let lastsize := if lastsize =? 0 then wrap (2 * n - 1) else lastsize in
  if negb (wrap (lastsize / 2 + 1) =? n)
  then Throw (runtime_error "bad lastsize")
  else Ok lastsize.

Definition c2r_internal (T : prec) (in_ : array) (axes_ : pyobject)
  (lastsize : Z) (forward : bool) (inorm : Z) (out_ : pyobject) (nthreads : Z)
  : result array :=
  let* axes := makeaxes in_ axes_ in
  let* axis := back axes in
  let dims_in := copy_shape in_ in
  let dims_out := dims_in in
  let* n := at_index dims_in axis in
  let* lastsize := resolve_lastsize lastsize n in
  let* dims_out := set_index dims_out axis lastsize in
  let* res := prepare_output (Real T) out_ dims_out in
  let s_in := copy_strides in_ in
  let s_out := copy_strides res in
  let* d_in := cplx_view T in_ in
  let* d_out := real_view T res in
  let* fct := norm_fct inorm dims_out axes in
  let* d_out :=
    pocketfft_c2r T dims_out s_in s_out axes forward d_in d_out fct nthreads in
  Ok (with_real res T d_out).

Definition c2r (in_ : array) (axes_ : pyobject) (lastsize : Z)
  (forward : bool) (inorm : Z) (out_ : pyobject) (nthreads : Z)
  : result array :=
  DISPATCH in_ c128 c64 clong
    (fun T => c2r_internal T in_ axes_ lastsize forward inorm out_ nthreads).

(** ** Hartley transforms *)

Definition separable_hartley_internal (T : prec) (in_ : array)
  (axes_ : pyobject) (inorm : Z) (out_ : pyobject) (nthreads : Z)
  : result array :=
  let dims := copy_shape in_ in
  let* res := prepare_output (Real T) out_ dims in
  let* axes := makeaxes in_ axes_ in
  let s_in := copy_strides in_ in
  let s_out := copy_strides res in
  let* d_in := real_view T in_ in
  let* d_out := real_view T res in
  let* fct := norm_fct inorm dims axes in
  let* d_out :=
    pocketfft_r2r_separable_hartley T dims s_in s_out axes d_in d_out fct
      nthreads in
  Ok (with_real res T d_out).

Definition separable_hartley (in_ : array) (axes_ : pyobject) (inorm : Z)
  (out_ : pyobject) (nthreads : Z) : result array :=
  DISPATCH in_ f64 f32 flong
    (fun T => separable_hartley_internal T in_ axes_ inorm out_ nthreads).

(** The loop of [complex2hartley]:
    [while (iin.remaining()>0)
       { auto v = atmp[iin.ofs()];
         aout[iout.ofs()] = v.r+v.i; aout[iout.rev_ofs()] = v.r-v.i;
         iin.advance(); iout.advance(); }] *)
Fixpoint hartley_loop (fuel : nat) (atmp : cmem) (iin : simple_iter)
  (iout : rev_iter) (aout : rmem) : option rmem :=
  if si_remaining iin >? 0 then
    match fuel with
    | O => None
    | S fuel' =>
        let v := atmp (si_ofs iin) in
        let aout := store aout (ofs iout) (s_add (fst v) (snd v)) in
        let aout := store aout (rev_ofs iout) (s_sub (fst v) (snd v)) in
        hartley_loop fuel' atmp (si_advance iin) (advance iout) aout
    end
  else Some aout.

Definition complex2hartley (T : prec) (in_ tmp : array) (axes_ : pyobject)
  (out_ : pyobject) : result array :=
  let dims_out := copy_shape in_ in
  let* out := prepare_output (Real T) out_ dims_out in
  let* d_tmp := cplx_view T tmp in
  let atmp := mk_arr_info (copy_shape tmp) (copy_strides tmp) in
  let* d_out := real_view T out in
  let aout := mk_arr_info (copy_shape out) (copy_strides out) in
  let* axes := makeaxes in_ axes_ in
  let iin := simple_iter_new atmp in
  let* iout := rev_iter_new aout axes in
  if negb (si_remaining iin =? remaining iout)
  then Throw (runtime_error "oops")
  else
    let* d_out :=
      completed
        (hartley_loop (Z.to_nat (si_remaining iin)) d_tmp iin iout d_out) in
    Ok (with_real out T d_out).

Definition genuine_hartley (in_ : array) (axes_ : pyobject) (inorm : Z)
  (out_ : pyobject) (nthreads : Z) : result array :=
  let* tmp := r2c in_ axes_ true inorm PyNone nthreads in
  DISPATCH in_ f64 f32 flong
    (fun T => complex2hartley T in_ tmp axes_ out_).

(** ** The module definition *)


















End FrontEnd.

(** ** Reference descriptions used in the statements *)

(** The product of [shape[a]] over the listed axes, as an integer. *)
Definition prod_axes (shape axes : shape_t) : Z :=
  fold_right (fun a acc => nth (Z.to_nat a) shape 0 * acc) 1 axes.

(** An axis entry after [makeaxes] has added the rank to a negative one. *)
Definition normalized (rank sz : Z) : Z := if sz <? 0 then sz + rank else sz.

(** An index inside the extent [shape]. *)
Definition in_box (shape : shape_t) (pos : list Z) : Prop :=
  Forall2 (fun n i => 0 <= i < n) shape pos.

(** One pass through the body of the loop of [c2c_sym_internal], at the
    index [pos]. *)
Definition fill_step {P : Platform} (arr : arr_info) (rev_axis : list bool)
  (m : cmem) (pos : list Z) : cmem :=
  store m (offset (ai_stride arr) (mirror (ai_shape arr) rev_axis pos))
    (conj (m (offset (ai_stride arr) pos))).

(** One pass through the body of the loop of [complex2hartley], with the
    forward iterator at [fst pp] and the mirror iterator at [snd pp]. *)
Definition hartley_step {P : Platform} (atmp : arr_info) (d_tmp : cmem)
  (aout : arr_info) (rev_axis : list bool) (m : rmem)
  (pp : list Z * list Z) : rmem :=
  let v := d_tmp (offset (ai_stride atmp) (fst pp)) in
  store
    (store m (offset (ai_stride aout) (snd pp)) (s_add (fst v) (snd v)))
    (offset (ai_stride aout) (mirror (ai_shape aout) rev_axis (snd pp)))
    (s_sub (fst v) (snd v)).

(** [k] calls of [advance]. *)
Definition advance_n {P : Platform} (k : nat) (it : rev_iter) : rev_iter :=
  Nat.iter k advance it.

Definition si_advance_n {P : Platform} (k : nat) (it : simple_iter)
  : simple_iter :=
  Nat.iter k si_advance it.

(** The element types the module instantiates its templates with. *)
Definition supported (et : dtype) : Prop :=
  exists T, et = Real T \/ et = Complex T.

(** ** A small platform to run the model on *)

(** Integers stand in for the floating-point values, and the kernels are
    stand-ins that leave a recognisable pattern: the complex-output one
    writes [(x, 0)] at the offsets [0] and [32] and [(x, 3)] elsewhere, [x]
    being the input found at half the offset. A new block holds sevens. *)
Definition toy : Platform := {|
  scalar := Z;
  s_add := Z.add;
  s_sub := Z.sub;
  s_neg := Z.opp;
  sizeof_ldbl_t := 16;
  uninit_real := fun _ _ _ => 7;
  uninit_cplx := fun _ _ _ => (7, 7);
  pocketfft_c2c := fun _ _ _ _ _ _ d_in _ _ _ => Ok d_in;
  pocketfft_r2c := fun _ _ _ _ _ _ d_in _ _ _ =>
    Ok (fun o => (d_in (o / 2), if (o =? 0) || (o =? 32) then 0 else 3));
  pocketfft_c2r := fun _ _ _ _ _ _ d_in _ _ _ =>
    Ok (fun o => fst (d_in (2 * o)));
  pocketfft_r2r_fftpack := fun _ _ _ _ _ _ _ d_in _ _ _ => Ok d_in;
  pocketfft_r2r_separable_hartley := fun _ _ _ _ _ d_in _ _ _ => Ok d_in
|}.

(** [numpy.array([10., 20., 30., 40.])]: float64, shape [(4,)]. *)
Definition toy_real4 : @array toy :=
  @mk_array toy [4] [8] (@real_data toy Pdouble (fun o => 10 + 10 * (o / 8))).

(** A complex128 array of shape [(5,)]. *)
Definition toy_cplx5 : @array toy :=
  @mk_array toy [5] [16] (@cplx_data toy Pdouble (fun o => (o / 16, 1))).

(** A float64 array of shape [(2, 3, 4)]. *)
Definition toy_real234 : @array toy :=
  @mk_array toy [2; 3; 4] [96; 32; 8]
    (@real_data toy Pdouble (fun o => o / 8)).

(** A float64 array of shape [(3,)]. *)
Definition toy_real3 : @array toy :=
  @mk_array toy [3] [8] (@real_data toy Pdouble (fun o => o)).

(** An int64 array of shape [(4,)]: a dtype the module does not handle. *)
Definition toy_int4 : @array toy :=
  @mk_array toy [4] [8] (@other_data toy false).

(** A complex128 array of shape [(3,)], the shape of the spectrum of a
    real array of length 4 or 5. *)
Definition toy_cplx3 : @array toy :=
  @mk_array toy [3] [16] (@cplx_data toy Pdouble (fun o => (o / 16, 1))).

(** A float64 array of rank 0. *)
Definition toy_real0d : @array toy :=
  @mk_array toy [] [] (@real_data toy Pdouble (fun o => 5)).

(** A complex128 array of shape [(2, 0)]: its last axis is empty. *)
Definition toy_cplx20 : @array toy :=
  @mk_array toy [2; 0] [0; 16] (@cplx_data toy Pdouble (fun o => (0, 0))).

(** * Properties *)

Unset Implicit Arguments.

(** ** Basic facts about the helpers *)

Lemma bind_ok_inv {A B : Type} (m : result A) (k : A -> result B) (b : B) :
  bind m k = Ok b -> exists a, m = Ok a /\ k a = Ok b.
Proof. destruct m as [a|e]; simpl; intros H; [eauto | discriminate]. Qed.

Lemma wrap_small x : 0 <= x < size_t_modulus -> wrap x = x.
Proof. intros; unfold wrap; now apply Z.mod_small. Qed.

Lemma wrap_mul_l x y : wrap (wrap x * y) = wrap (x * y).
Proof. unfold wrap; now rewrite Z.mul_mod_idemp_l by (unfold size_t_modulus; lia). Qed.

Lemma prec_eqb_refl p : prec_eqb p p = true.
Proof. now destruct p. Qed.

Lemma prec_eqb_eq p q : prec_eqb p q = true -> p = q.
Proof. destruct p, q; simpl; congruence. Qed.

Lemma length_iota n : length (iota n) = Z.to_nat n.
Proof. unfold iota; now rewrite length_map, length_seq. Qed.

Lemma nth_iota n i d :
  0 <= i < n -> nth (Z.to_nat i) (iota n) d = i.
Proof.
  intros Hi; unfold iota.
  rewrite nth_indep with (d' := Z.of_nat 0) by (rewrite length_map, length_seq; lia).
  rewrite map_nth, seq_nth by lia; simpl; lia.
Qed.

Lemma in_iota n i : In i (iota n) <-> 0 <= i < n.
Proof.
  unfold iota; rewrite in_map_iff; split.
  - intros (k & <- & Hk); apply in_seq in Hk; lia.
  - intros Hi; exists (Z.to_nat i); split; [lia|]; apply in_seq; lia.
Qed.

Lemma length_set_nth v i x : length (set_nth v i x) = length v.
Proof.
  revert i; induction v as [|h t IH]; intros [|i]; simpl; auto.
Qed.

Lemma nth_set_nth_same v i x d :
  (i < length v)%nat -> nth i (set_nth v i x) d = x.
Proof.
  revert i; induction v as [|h t IH]; intros [|i]; simpl; intros H;
    try lia; auto; apply IH; lia.
Qed.

Lemma nth_set_nth_other v i j x d :
  i <> j -> nth j (set_nth v i x) d = nth j v d.
Proof.
  revert i j; induction v as [|h t IH]; intros [|i] [|j]; simpl; intros H;
    auto; try congruence.
Qed.

(** ** Axis resolution *)

Lemma normalize_axes_ok rank l :
  Forall (fun sz => 0 <= normalized rank sz < rank) l ->
  normalize_axes rank l = Ok (map (normalized rank) l).
Proof.
  induction 1 as [|sz l Hsz _ IH]; simpl; [reflexivity|].
  fold (normalized rank sz).
  destruct (Z.geb_spec (normalized rank sz) rank);
    destruct (Z.ltb_spec (normalized rank sz) 0); simpl; try lia.
  now rewrite IH.
Qed.

Lemma normalize_axes_bad rank l :
  Exists (fun sz => normalized rank sz < 0 \/ rank <= normalized rank sz) l ->
  normalize_axes rank l =
  Throw (invalid_argument "axes exceeds dimensionality of output").
Proof.
  induction 1 as [sz l Hsz | sz l _ IH]; simpl;
    fold (normalized rank sz);
    destruct (Z.geb_spec (normalized rank sz) rank);
    destruct (Z.ltb_spec (normalized rank sz) 0); simpl; try reflexivity;
    try lia.
  now rewrite IH.
Qed.

(** C4. [makeaxes] on an array of rank [r]: without an axes argument the
    result is [0, 1, ..., r-1]; a list that is empty or longer than [r] is
    rejected; each negative entry gets [r] added; an entry that is then
    still below [0] or at least [r] is rejected; otherwise the entries come
    back in the caller's order, duplicates included. On rank 3, [[-1]] gives
    what [[2]] gives, and [[]] and [[0,1,2,3]] are rejected. *)
Theorem makeaxes_resolution {P : Platform} (in_ : array) :
  (makeaxes in_ PyNone = Ok (iota (ndim in_)) /\
   length (iota (ndim in_)) = length (arr_shape in_) /\
   forall i, 0 <= i < ndim in_ -> nth (Z.to_nat i) (iota (ndim in_)) (-1) = i) /\
  (forall l, cast_vector_ptrdiff (PyList l) = Ok l ->
     (l = [] \/ ndim in_ < Z.of_nat (length l) ->
      makeaxes in_ (PyList l) = Throw (runtime_error "bad axes argument")) /\
     (l <> [] -> Z.of_nat (length l) <= ndim in_ ->
      Exists (fun sz => normalized (ndim in_) sz < 0 \/
                        ndim in_ <= normalized (ndim in_) sz) l ->
      makeaxes in_ (PyList l) =
      Throw (invalid_argument "axes exceeds dimensionality of output")) /\
     (l <> [] -> Z.of_nat (length l) <= ndim in_ ->
      Forall (fun sz => 0 <= normalized (ndim in_) sz < ndim in_) l ->
      makeaxes in_ (PyList l) = Ok (map (normalized (ndim in_)) l))) /\
  (ndim in_ = 3 ->
     makeaxes in_ (PyList [-1]) = Ok [2] /\
     makeaxes in_ (PyList [2]) = Ok [2] /\
     makeaxes in_ (PyList [1; 1]) = Ok [1; 1] /\
     makeaxes in_ (PyList []) = Throw (runtime_error "bad axes argument") /\
     makeaxes in_ (PyList [0; 1; 2; 3]) =
     Throw (runtime_error "bad axes argument")).
Proof.
  split; [|split].
  - split; [reflexivity|split].
    + rewrite length_iota; unfold ndim; lia.
    + intros i Hi; now apply nth_iota.
  - intros l Hcast; unfold makeaxes; simpl is_None; cbv iota.
    rewrite Hcast; simpl bind.
    repeat split.
    + intros [-> | Hlen]; [simpl; now rewrite orb_true_r|].
      destruct (Z.gtb_spec (Z.of_nat (length l)) (ndim in_)); [reflexivity|lia].
    + intros Hne Hlen Hbad.
      destruct (Z.gtb_spec (Z.of_nat (length l)) (ndim in_)); [lia|].
      destruct (Z.eqb_spec (Z.of_nat (length l)) 0) as [E|_].
      * destruct l; [congruence|discriminate].
      * simpl; now apply normalize_axes_bad.
    + intros Hne Hlen Hgood.
      destruct (Z.gtb_spec (Z.of_nat (length l)) (ndim in_)); [lia|].
      destruct (Z.eqb_spec (Z.of_nat (length l)) 0) as [E|_].
      * destruct l; [congruence|discriminate].
      * simpl; now apply normalize_axes_ok.
  - intros H3; unfold makeaxes; simpl; rewrite H3; simpl; repeat split.
Qed.

Lemma makeaxes_resolution_witness :
  @makeaxes toy toy_real234 (PyList [-1; 0; -2]) = Ok [2; 0; 1] /\
  @makeaxes toy toy_real234 (PyList [0; 3]) =
  Throw (invalid_argument "axes exceeds dimensionality of output") /\
  @makeaxes toy toy_real234 (PyList [-1]) = @makeaxes toy toy_real234 (PyList [2]).
Proof.
  destruct (@makeaxes_resolution toy toy_real234) as (_ & Hlist & Hrank3).
  split; [|split].
  - destruct (Hlist [-1; 0; -2] eq_refl) as (_ & _ & Hok).
    apply Hok; [discriminate | vm_compute; discriminate |].
    repeat constructor; vm_compute; intuition discriminate.
  - destruct (Hlist [0; 3] eq_refl) as (_ & Hbad & _).
    apply Hbad; [discriminate | vm_compute; discriminate |].
    apply Exists_cons_tl, Exists_cons_hd; right; vm_compute; discriminate.
  - destruct (Hrank3 eq_refl) as (H1 & H2 & _); now rewrite H1, H2.
Defined.

(** Whatever [makeaxes] returns indexes the array's shape: the later
    [shape[a]] and [dims[axes.back()]] of the callers stay in range. *)
Lemma normalize_axes_in_range rank l axes :
  normalize_axes rank l = Ok axes ->
  Forall (fun a => 0 <= a < rank) axes.
Proof.
  revert axes; induction l as [|sz l IH]; intros axes H; simpl in H.
  - inversion H; constructor.
  - fold (normalized rank sz) in H.
    destruct (Z.geb_spec (normalized rank sz) rank);
      destruct (Z.ltb_spec (normalized rank sz) 0); simpl in H;
      try discriminate.
    apply bind_ok_inv in H as (rest & Hrest & H); inversion H; subst.
    constructor; [lia | now apply IH].
Qed.

Lemma makeaxes_in_range {P : Platform} (in_ : array) axes_ axes :
  makeaxes in_ axes_ = Ok axes ->
  Forall (fun a => 0 <= a < Z.of_nat (length (arr_shape in_))) axes.
Proof.
  unfold makeaxes; destruct (is_None axes_).
  - intros H; inversion H; subst; apply Forall_forall; intros a Ha.
    now apply in_iota in Ha.
  - intros H; apply bind_ok_inv in H as (tmp & _ & H).
    destruct ((Z.of_nat (length tmp) >? ndim in_) ||
              (Z.of_nat (length tmp) =? 0)); [discriminate|].
    now apply normalize_axes_in_range in H.
Qed.

(** ** Normalisation factor *)

Lemma axes_product_spec shape axes N :
  Forall (fun a => 0 <= a < Z.of_nat (length shape)) axes ->
  axes_product shape axes N =
  Ok (match axes with [] => N | _ => wrap (N * prod_axes shape axes) end).
Proof.
  intros H; revert N; induction H as [|a axes Ha _ IH]; intros N; simpl;
    [reflexivity|].
  unfold at_index.
  destruct (Z.leb_spec 0 a); destruct (Z.ltb_spec a (Z.of_nat (length shape)));
    try lia; simpl.
  rewrite IH; f_equal.
  destruct axes as [|b axes]; simpl.
  - now rewrite Z.mul_1_r.
  - rewrite wrap_mul_l; f_equal; ring.
Qed.

Lemma norm_fct_general inorm shape axes :
  Forall (fun a => 0 <= a < Z.of_nat (length shape)) axes ->
  norm_fct inorm shape axes =
  if inorm =? 0 then Ok fct_one
  else norm_fct_N inorm (wrap (prod_axes shape axes)).
Proof.
  intros H; unfold norm_fct; destruct (inorm =? 0); [reflexivity|].
  rewrite axes_product_spec by assumption; simpl.
  destruct axes as [|a axes]; [reflexivity|].
  cbv beta iota; unfold bind; do 2 f_equal.
  destruct (prod_axes shape (a :: axes)); reflexivity.
Qed.

(** C5. [norm_fct] gives [1] for mode 0, [1/sqrt(N)] for mode 1 and [1/N]
    for mode 2, and throws [invalid_argument] for every other mode; in the
    shape form [N] is the product of [shape[a]] over the listed axes (the
    source forms it in [size_t], so this is the product as long as it is
    below [2^64]). With shape [[4,8]] and axes [[0,1]]: [1/32] for mode 2,
    [1/sqrt 32] for mode 1, [1] for mode 0. *)
Theorem norm_fct_modes :
  (forall N, norm_fct_N 0 N = Ok fct_one /\
             norm_fct_N 1 N = Ok (fct_inv_sqrt N) /\
             norm_fct_N 2 N = Ok (fct_inv N)) /\
  (forall inorm N, inorm <> 0 -> inorm <> 1 -> inorm <> 2 ->
     norm_fct_N inorm N =
     Throw (invalid_argument "invalid value for inorm (must be 0, 1, or 2)")) /\
  (forall inorm shape axes,
     Forall (fun a => 0 <= a < Z.of_nat (length shape)) axes ->
     0 <= prod_axes shape axes < size_t_modulus ->
     norm_fct inorm shape axes = norm_fct_N inorm (prod_axes shape axes)) /\
  (forall inorm shape axes,
     Forall (fun a => 0 <= a < Z.of_nat (length shape)) axes ->
     inorm <> 0 -> inorm <> 1 -> inorm <> 2 ->
     norm_fct inorm shape axes =
     Throw (invalid_argument "invalid value for inorm (must be 0, 1, or 2)")) /\
  (forall shape axes, norm_fct 0 shape axes = Ok fct_one) /\
  (norm_fct 2 [4; 8] [0; 1] = Ok (fct_inv 32) /\
   norm_fct 1 [4; 8] [0; 1] = Ok (fct_inv_sqrt 32) /\
   norm_fct 0 [4; 8] [0; 1] = Ok fct_one) /\
  (fct_value (fct_inv 32) = (1 / 32)%R /\
   fct_value (fct_inv_sqrt 32) = (1 / sqrt 32)%R /\
   fct_value fct_one = 1%R).
Proof.
  assert (Hbad : forall inorm N, inorm <> 0 -> inorm <> 1 -> inorm <> 2 ->
     norm_fct_N inorm N =
     Throw (invalid_argument "invalid value for inorm (must be 0, 1, or 2)")).
  { intros inorm N H0 H1 H2; unfold norm_fct_N.
    destruct (Z.eqb_spec inorm 0); [lia|].
    destruct (Z.eqb_spec inorm 2); [lia|].
    destruct (Z.eqb_spec inorm 1); [lia|reflexivity]. }
  repeat split; try reflexivity; auto.
  - intros inorm shape axes Hax Hprod.
    rewrite norm_fct_general by assumption.
    rewrite wrap_small by assumption.
    destruct (Z.eqb_spec inorm 0) as [->|]; reflexivity.
  - intros inorm shape axes Hax H0 H1 H2.
    rewrite norm_fct_general by assumption.
    destruct (Z.eqb_spec inorm 0); [lia|]; now apply Hbad.
Qed.

Lemma norm_fct_modes_witness :
  norm_fct 2 [2; 3; 4] [2; 0] = Ok (fct_inv 8) /\
  norm_fct 7 [2; 3; 4] [2; 0] =
  Throw (invalid_argument "invalid value for inorm (must be 0, 1, or 2)").
Proof.
  destruct norm_fct_modes as (_ & _ & Hshape & Hbad & _).
  split.
  - apply (Hshape 2 [2; 3; 4] [2; 0]).
    + repeat constructor; vm_compute; discriminate.
    + vm_compute; split; [discriminate | reflexivity].
  - apply (Hbad 7 [2; 3; 4] [2; 0]); try discriminate.
    repeat constructor; vm_compute; discriminate.
Defined.

(** ** Dispatch and indexing *)

Lemma DISPATCH_real {P : Platform} {A : Type} (a : array) (T : prec)
  (func : prec -> result A) :
  arr_dtype a = Real T -> DISPATCH a f64 f32 flong func = func T.
Proof. intros H; unfold DISPATCH; rewrite H; now destruct T. Qed.

Lemma DISPATCH_complex {P : Platform} {A : Type} (a : array) (T : prec)
  (func : prec -> result A) :
  arr_dtype a = Complex T -> DISPATCH a c128 c64 clong func = func T.
Proof. intros H; unfold DISPATCH; rewrite H; now destruct T. Qed.

Lemma at_index_inv v i n :
  at_index v i = Ok n ->
  0 <= i < Z.of_nat (length v) /\ n = nth (Z.to_nat i) v 0.
Proof.
  unfold at_index.
  destruct (Z.leb_spec 0 i); destruct (Z.ltb_spec i (Z.of_nat (length v)));
    simpl; intros E; inversion E; subst; auto with zarith.
Qed.

Lemma set_index_in_range v i x :
  0 <= i < Z.of_nat (length v) ->
  set_index v i x = Ok (set_nth v (Z.to_nat i) x).
Proof.
  intros Hi; unfold set_index.
  destruct (Z.leb_spec 0 i); destruct (Z.ltb_spec i (Z.of_nat (length v)));
    simpl; auto; lia.
Qed.

Lemma real_view_data {P : Platform} T (a : array) d :
  arr_payload a = real_data T d -> real_view T a = Ok d.
Proof. intros H; unfold real_view; now rewrite H, prec_eqb_refl. Qed.

Lemma cplx_view_data {P : Platform} T (a : array) d :
  arr_payload a = cplx_data T d -> cplx_view T a = Ok d.
Proof. intros H; unfold cplx_view; now rewrite H, prec_eqb_refl. Qed.

Lemma dtype_of_real_data {P : Platform} T (a : array) d :
  arr_payload a = real_data T d -> arr_dtype a = Real T.
Proof. intros H; unfold arr_dtype; now rewrite H. Qed.

Lemma dtype_of_cplx_data {P : Platform} T (a : array) d :
  arr_payload a = cplx_data T d -> arr_dtype a = Complex T.
Proof. intros H; unfold arr_dtype; now rewrite H. Qed.

(** ** Real-output inverse transform *)

(** [c2r] up to the point where the output length is settled. *)
Lemma c2r_steps {P : Platform} T (in_ : array) axes_ lastsize forward inorm
  out_ nthreads axes axis n :
  arr_dtype in_ = Complex T ->
  makeaxes in_ axes_ = Ok axes ->
  back axes = Ok axis ->
  at_index (arr_shape in_) axis = Ok n ->
  c2r in_ axes_ lastsize forward inorm out_ nthreads =
  let* lastsize := resolve_lastsize lastsize n in
  let dims_out := set_nth (arr_shape in_) (Z.to_nat axis) lastsize in
  let* res := prepare_output (Real T) out_ dims_out in
  let* d_in := cplx_view T in_ in
  let* d_out := real_view T res in
  let* fct := norm_fct inorm dims_out axes in
  let* d_out :=
    pocketfft_c2r T dims_out (arr_strides in_) (arr_strides res) axes forward
      d_in d_out fct nthreads in
  Ok (with_real res T d_out).
Proof.
  intros Hdt Hax Hback Hn.
  unfold c2r; rewrite (DISPATCH_complex _ _ _ Hdt).
  unfold c2r_internal, copy_shape, copy_strides.
  rewrite Hax; simpl; rewrite Hback; simpl; rewrite Hn; simpl.
  destruct (resolve_lastsize lastsize n) as [ls|e]; simpl; [|reflexivity].
  apply at_index_inv in Hn as [Hr _].
  now rewrite set_index_in_range.
Qed.

Lemma resolve_lastsize_inferred n :
  0 < n < 2 ^ 63 -> resolve_lastsize 0 n = Ok (2 * n - 1).
Proof.
  intros Hn; unfold resolve_lastsize.
  change (0 =? 0) with true; cbv iota.
  rewrite (wrap_small (2 * n - 1)) by (unfold size_t_modulus; lia).
  assert (E : (2 * n - 1) / 2 + 1 = n) by (Z.to_euclidean_division_equations; lia).
  rewrite E, wrap_small by (unfold size_t_modulus; lia).
  now rewrite Z.eqb_refl.
Qed.

Lemma resolve_lastsize_explicit lastsize n :
  0 < lastsize < size_t_modulus ->
  resolve_lastsize lastsize n =
  if lastsize / 2 + 1 =? n then Ok lastsize
  else Throw (runtime_error "bad lastsize").
Proof.
  intros Hl; unfold resolve_lastsize.
  destruct (Z.eqb_spec lastsize 0); [lia|].
  rewrite wrap_small
    by (unfold size_t_modulus in *; Z.to_euclidean_division_equations; lia).
  now destruct (lastsize / 2 + 1 =? n).
Qed.

(** C3. In [c2r], with [n_in] the input's length on the last transformed
    axis: a [lastsize] of [0] is replaced by [2*n_in - 1] (computed in
    [size_t]), and the call then goes on with that value as the output
    length; a nonzero [lastsize] makes the call throw "bad lastsize" exactly
    when [floor(lastsize/2) + 1 <> n_in], and otherwise the call goes on with
    it. For [n_in = 5], [0] gives [9] and [10] is rejected. On an empty axis
    ([n_in = 0]) the replacement [2*0 - 1] wraps around and is rejected by
    the same check. "Goes on" is the rest of [c2r_internal]: the output
    buffer for the shape with that length on the axis, the factor over that
    shape, the kernel. *)
Theorem c2r_lastsize_contract {P : Platform} T (in_ : array) axes_ forward
  inorm out_ nthreads axes axis n :
  arr_dtype in_ = Complex T ->
  makeaxes in_ axes_ = Ok axes ->
  back axes = Ok axis ->
  at_index (arr_shape in_) axis = Ok n ->
  0 <= n < 2 ^ 63 ->
  let goes_on := fun (out_ : pyobject) (lastsize : Z) =>
    let dims_out := set_nth (arr_shape in_) (Z.to_nat axis) lastsize in
    let* res := prepare_output (Real T) out_ dims_out in
    let* d_in := cplx_view T in_ in
    let* d_out := real_view T res in
    let* fct := norm_fct inorm dims_out axes in
    let* d_out :=
      pocketfft_c2r T dims_out (arr_strides in_) (arr_strides res) axes
        forward d_in d_out fct nthreads in
    Ok (with_real res T d_out) in
  (forall lastsize, 0 <= lastsize < size_t_modulus ->
     c2r in_ axes_ lastsize forward inorm out_ nthreads =
     (let lastsize := if lastsize =? 0 then wrap (2 * n - 1) else lastsize in
      if lastsize / 2 + 1 =? n then goes_on out_ lastsize
      else Throw (runtime_error "bad lastsize"))) /\
  (1 <= n ->
   resolve_lastsize 0 n = Ok (2 * n - 1) /\
   c2r in_ axes_ 0 forward inorm out_ nthreads = goes_on out_ (2 * n - 1) /\
   c2r in_ axes_ 0 forward inorm out_ nthreads =
   c2r in_ axes_ (2 * n - 1) forward inorm out_ nthreads /\
   forall res, c2r in_ axes_ 0 forward inorm PyNone nthreads = Ok res ->
     arr_shape res = set_nth (arr_shape in_) (Z.to_nat axis) (2 * n - 1) /\
     at_index (arr_shape res) axis = Ok (2 * n - 1)) /\
  (n = 0 ->
   c2r in_ axes_ 0 forward inorm out_ nthreads =
   Throw (runtime_error "bad lastsize")) /\
  (forall lastsize, 0 < lastsize < size_t_modulus ->
     (lastsize / 2 + 1 <> n <->
      resolve_lastsize lastsize n = Throw (runtime_error "bad lastsize")) /\
     (lastsize / 2 + 1 <> n ->
      c2r in_ axes_ lastsize forward inorm out_ nthreads =
      Throw (runtime_error "bad lastsize")) /\
     (lastsize / 2 + 1 = n ->
      resolve_lastsize lastsize n = Ok lastsize /\
      c2r in_ axes_ lastsize forward inorm out_ nthreads =
      goes_on out_ lastsize /\
      forall res,
        c2r in_ axes_ lastsize forward inorm PyNone nthreads = Ok res ->
        arr_shape res = set_nth (arr_shape in_) (Z.to_nat axis) lastsize)) /\
  (n = 5 ->
   resolve_lastsize 0 n = Ok 9 /\
   c2r in_ axes_ 0 forward inorm out_ nthreads = goes_on out_ 9 /\
   c2r in_ axes_ 10 forward inorm out_ nthreads =
   Throw (runtime_error "bad lastsize")).
Proof.
  intros Hdt Hax Hback Hn Hrange goes_on.
  pose proof (at_index_inv _ _ _ Hn) as [Hax_range _].
  assert (Hsteps : forall o lastsize,
    c2r in_ axes_ lastsize forward inorm o nthreads =
    (let* ls := resolve_lastsize lastsize n in goes_on o ls))
    by (intros o lastsize;
        apply (c2r_steps T in_ axes_ lastsize forward inorm o nthreads axes
                 axis n Hdt Hax Hback Hn)).
  assert (Hshape : forall ls res, goes_on PyNone ls = Ok res ->
    arr_shape res = set_nth (arr_shape in_) (Z.to_nat axis) ls).
  { intros ls res Hres; unfold goes_on in Hres; cbv zeta in Hres.
    repeat (apply bind_ok_inv in Hres as (? & ? & Hres)).
    match goal with
    | Hp : prepare_output _ PyNone _ = Ok _ |- _ =>
        unfold prepare_output in Hp; cbn [is_None] in Hp;
        injection Hp as Hp; rewrite <- Hp in Hres
    end.
    injection Hres as Hres; rewrite <- Hres; reflexivity. }
  assert (Hexplicit : forall lastsize o, 0 < lastsize < size_t_modulus ->
    c2r in_ axes_ lastsize forward inorm o nthreads =
    if lastsize / 2 + 1 =? n then goes_on o lastsize
    else Throw (runtime_error "bad lastsize")).
  { intros lastsize o Hl; rewrite Hsteps, resolve_lastsize_explicit by lia.
    now destruct (lastsize / 2 + 1 =? n). }
  assert (Hzero : forall o,
    c2r in_ axes_ 0 forward inorm o nthreads =
    if wrap (2 * n - 1) / 2 + 1 =? n then goes_on o (wrap (2 * n - 1))
    else Throw (runtime_error "bad lastsize")).
  { intros o; rewrite Hsteps; unfold resolve_lastsize.
    change (0 =? 0) with true; cbv iota.
    assert (Hw : 0 <= wrap (2 * n - 1) < size_t_modulus)
      by (unfold wrap, size_t_modulus; apply Z.mod_pos_bound; lia).
    rewrite (wrap_small (wrap (2 * n - 1) / 2 + 1))
      by (unfold size_t_modulus in *; Z.to_euclidean_division_equations; lia).
    now destruct (wrap (2 * n - 1) / 2 + 1 =? n). }
  assert (Hinferred : 1 <= n -> forall o,
    c2r in_ axes_ 0 forward inorm o nthreads = goes_on o (2 * n - 1)).
  { intros Hn1 o; rewrite Hsteps, resolve_lastsize_inferred by lia.
    reflexivity. }
  split; [|split; [|split; [|split]]].
  - intros lastsize Hl; cbv zeta.
    destruct (Z.eqb_spec lastsize 0) as [->|Hne]; [apply Hzero|].
    apply Hexplicit; lia.
  - intros Hn1.
    split; [apply resolve_lastsize_inferred; lia|].
    split; [now apply Hinferred|split].
    + rewrite Hinferred by assumption.
      rewrite Hexplicit by (unfold size_t_modulus; lia).
      replace ((2 * n - 1) / 2 + 1 =? n) with true; [reflexivity|].
      symmetry; apply Z.eqb_eq; Z.to_euclidean_division_equations; lia.
    + intros res Hres; rewrite Hinferred in Hres by assumption.
      apply Hshape in Hres; split; [exact Hres|].
      rewrite Hres; unfold at_index; rewrite length_set_nth.
      destruct (Z.leb_spec 0 axis);
        destruct (Z.ltb_spec axis (Z.of_nat (length (arr_shape in_))));
        try lia; simpl.
      now rewrite nth_set_nth_same by lia.
  - intros ->; now rewrite Hzero.
  - intros lastsize Hl.
    pose proof (resolve_lastsize_explicit lastsize n Hl) as E.
    split; [|split].
    + split.
      * intros Hne; rewrite E; destruct (Z.eqb_spec (lastsize / 2 + 1) n);
          [contradiction|reflexivity].
      * intros Hth Heq; rewrite E in Hth.
        destruct (Z.eqb_spec (lastsize / 2 + 1) n);
          [discriminate|contradiction].
    + intros Hne; rewrite Hexplicit by assumption.
      destruct (Z.eqb_spec (lastsize / 2 + 1) n); [contradiction|reflexivity].
    + intros Heq.
      assert (Eb : (lastsize / 2 + 1 =? n) = true) by now apply Z.eqb_eq.
      split; [now rewrite E, Eb|split].
      * now rewrite Hexplicit, Eb.
      * intros res Hres; rewrite Hexplicit, Eb in Hres by assumption.
        now apply Hshape.
  - intros ->; split; [reflexivity|split].
    + apply Hinferred; lia.
    + rewrite Hexplicit by (unfold size_t_modulus; lia); reflexivity.
Qed.

Lemma c2r_lastsize_contract_witness :
  (exists res,
     @c2r toy toy_cplx5 PyNone 0 false 2 PyNone 1 = Ok res /\
     arr_shape res = [9]) /\
  (exists res,
     @c2r toy toy_cplx5 PyNone 8 false 2 PyNone 1 = Ok res /\
     arr_shape res = [8]) /\
  @c2r toy toy_cplx5 PyNone 0 false 2 PyNone 1 =
  @c2r toy toy_cplx5 PyNone 9 false 2 PyNone 1 /\
  @c2r toy toy_cplx5 PyNone 10 false 2 PyNone 1 =
  Throw (runtime_error "bad lastsize") /\
  @c2r toy toy_cplx20 PyNone 0 false 2 PyNone 1 =
  Throw (runtime_error "bad lastsize").
Proof.
  destruct (@c2r_lastsize_contract toy Pdouble toy_cplx5 PyNone false 2 PyNone
              1 [0] 0 5 eq_refl eq_refl eq_refl eq_refl
              ltac:(vm_compute; split; [discriminate|reflexivity]))
    as (_ & Hinf & _ & Hexp & H5).
  destruct (Hinf ltac:(vm_compute; discriminate)) as (_ & Hrun & Hsame & _).
  destruct (Hexp 8 ltac:(vm_compute; split; reflexivity)) as (_ & _ & H8).
  destruct (H8 eq_refl) as (_ & Hrun8 & _).
  split; [rewrite Hrun; eexists; split; reflexivity|].
  split; [rewrite Hrun8; eexists; split; reflexivity|].
  split; [exact Hsame|].
  split; [exact (proj2 (proj2 (H5 eq_refl)))|].
  destruct (@c2r_lastsize_contract toy Pdouble toy_cplx20 PyNone false 2
              PyNone 1 [0; 1] 1 0 eq_refl eq_refl eq_refl eq_refl
              ltac:(vm_compute; split; [discriminate|reflexivity]))
    as (_ & _ & Hempty & _).
  now apply Hempty.
Defined.



(** [resolve_lastsize] on an empty axis: [2*0 - 1] wraps around in
    [size_t], and the check rejects the result. *)
Lemma resolve_lastsize_empty_axis :
  resolve_lastsize 0 0 = Throw (runtime_error "bad lastsize").
Proof. reflexivity. Qed.

(** ** Real-input transform *)

Lemma shiftr_1_half n : Z.shiftr n 1 = n / 2.
Proof. now rewrite Z.shiftr_div_pow2 by lia. Qed.

(** [r2c] up to the point where the output shape is settled. *)
Lemma r2c_steps {P : Platform} T (in_ : array) d_in axes_ forward inorm out_
  nthreads axes last n :
  arr_payload in_ = real_data T d_in ->
  makeaxes in_ axes_ = Ok axes ->
  back axes = Ok last ->
  at_index (arr_shape in_) last = Ok n ->
  0 <= n < 2 ^ 63 ->
  r2c in_ axes_ forward inorm out_ nthreads =
  let dims_out := set_nth (arr_shape in_) (Z.to_nat last) (n / 2 + 1) in
  let* res := prepare_output (Complex T) out_ dims_out in
  let* d_out := cplx_view T res in
  let* fct := norm_fct inorm (arr_shape in_) axes in
  let* d_out :=
    pocketfft_r2c T (arr_shape in_) (arr_strides in_) (arr_strides res) axes
      forward d_in d_out fct nthreads in
  Ok (with_cplx res T d_out).
Proof.
  intros Hdata Hax Hback Hn Hrange.
  pose proof (at_index_inv _ _ _ Hn) as [Hlast _].
  unfold r2c.
  rewrite (DISPATCH_real _ _ _ (dtype_of_real_data _ _ _ Hdata)).
  unfold r2c_internal, copy_shape, copy_strides.
  rewrite Hax; simpl; rewrite Hback; simpl; rewrite Hn; simpl.
  rewrite shiftr_1_half, wrap_small
    by (unfold size_t_modulus; Z.to_euclidean_division_equations; lia).
  rewrite set_index_in_range by assumption; simpl.
  destruct (prepare_output (Complex T) out_ _) as [res|e]; simpl;
    [|reflexivity].
  now rewrite (real_view_data _ _ _ Hdata).
Qed.

(** [r2c] into a new output, when the mode is valid and the kernel
    returns. *)
Lemma r2c_allocating {P : Platform} T (in_ : array) d_in axes_ forward inorm
  nthreads axes last n fct d :
  arr_payload in_ = real_data T d_in ->
  makeaxes in_ axes_ = Ok axes ->
  back axes = Ok last ->
  at_index (arr_shape in_) last = Ok n ->
  0 <= n < 2 ^ 63 ->
  norm_fct inorm (arr_shape in_) axes = Ok fct ->
  let dims_out := set_nth (arr_shape in_) (Z.to_nat last) (n / 2 + 1) in
  pocketfft_r2c T (arr_shape in_) (arr_strides in_)
    (c_strides (2 * sizeof_T T) dims_out) axes forward d_in
    (uninit_cplx T dims_out) fct nthreads = Ok d ->
  r2c in_ axes_ forward inorm PyNone nthreads =
  Ok (mk_array dims_out (c_strides (2 * sizeof_T T) dims_out) (cplx_data T d)).
Proof.
  intros Hdata Hax Hback Hn Hrange Hfct dims_out Hk.
  rewrite (r2c_steps T in_ d_in axes_ forward inorm PyNone nthreads axes last n)
    by assumption.
  unfold prepare_output, array_t_new, cplx_view, itemsize.
  cbn [is_None bind arr_payload arr_strides arr_shape].
  fold dims_out.
  rewrite prec_eqb_refl, Hfct; cbn [bind]; rewrite Hk; reflexivity.
Qed.

(** C6. [r2c] on a real array with valid axes: the required output shape
    is the input shape with the length [n] of the last listed axis, and of
    no other, replaced by [floor(n/2) + 1]; a new output has exactly this
    shape; the kernel gets the input shape and the factor
    [norm_fct(inorm, input shape, axes)]. *)
Theorem r2c_output_shape {P : Platform} T (in_ : array) d_in axes_ forward
  inorm out_ nthreads axes last n :
  arr_payload in_ = real_data T d_in ->
  makeaxes in_ axes_ = Ok axes ->
  back axes = Ok last ->
  at_index (arr_shape in_) last = Ok n ->
  0 <= n < 2 ^ 63 ->
  let dims_out := set_nth (arr_shape in_) (Z.to_nat last) (n / 2 + 1) in
  (length dims_out = length (arr_shape in_) /\
   nth (Z.to_nat last) dims_out 0 = n / 2 + 1 /\
   forall i, i <> Z.to_nat last ->
     nth i dims_out 0 = nth i (arr_shape in_) 0) /\
  r2c in_ axes_ forward inorm out_ nthreads =
  (let* res := prepare_output (Complex T) out_ dims_out in
   let* d_out := cplx_view T res in
   let* fct := norm_fct inorm (arr_shape in_) axes in
   let* d_out :=
     pocketfft_r2c T (arr_shape in_) (arr_strides in_) (arr_strides res) axes
       forward d_in d_out fct nthreads in
   Ok (with_cplx res T d_out)) /\
  (forall res, r2c in_ axes_ forward inorm PyNone nthreads = Ok res ->
     arr_shape res = dims_out /\ arr_dtype res = Complex T) /\
  (forall fct d,
     norm_fct inorm (arr_shape in_) axes = Ok fct ->
     pocketfft_r2c T (arr_shape in_) (arr_strides in_)
       (c_strides (2 * sizeof_T T) dims_out) axes forward d_in
       (uninit_cplx T dims_out) fct nthreads = Ok d ->
     r2c in_ axes_ forward inorm PyNone nthreads =
     Ok (mk_array dims_out (c_strides (2 * sizeof_T T) dims_out)
           (cplx_data T d))).
Proof.
  intros Hdata Hax Hback Hn Hrange dims_out.
  pose proof (at_index_inv _ _ _ Hn) as [Hlast _].
  assert (Hcall := fun out_ =>
    r2c_steps T in_ d_in axes_ forward inorm out_ nthreads axes last n
      Hdata Hax Hback Hn Hrange).
  cbv zeta in Hcall; fold dims_out in Hcall.
  split; [|split; [apply Hcall|split]].
  - unfold dims_out; split; [apply length_set_nth|split].
    + apply nth_set_nth_same; lia.
    + intros i Hi; apply nth_set_nth_other; congruence.
  - intros res Hres; rewrite Hcall in Hres; simpl in Hres.
    repeat (apply bind_ok_inv in Hres as (? & ? & Hres)).
    inversion Hres; subst res; split; reflexivity.
  - intros fct d Hfct Hk.
    now apply (r2c_allocating T in_ d_in axes_ forward inorm nthreads axes
                 last n fct d).
Qed.

Lemma r2c_output_shape_witness :
  exists res,
    @r2c toy toy_real234 (PyList [0; 2]) true 0 PyNone 1 = Ok res /\
    arr_shape res = [2; 3; 3].
Proof.
  destruct (@r2c_output_shape toy Pdouble toy_real234 (fun o => o / 8)
              (PyList [0; 2]) true 0 PyNone 1 [0; 2] 2 4
              eq_refl eq_refl eq_refl eq_refl)
    as (_ & _ & Hshape & Hret).
  - vm_compute; split; [discriminate | reflexivity].
  - eexists; split; [apply (Hret fct_one); reflexivity | reflexivity].
Defined.

(** ** Output buffer resolution *)

Lemma dtype_is_supported d et :
  supported et -> (dtype_is d et = true <-> d = et).
Proof.
  intros [T [-> | ->]]; destruct d as [p|p|k]; simpl; split; intros H;
    try discriminate; try (apply prec_eqb_eq in H; now subst);
    inversion H; apply prec_eqb_refl.
Qed.

Lemma prepare_output_array {P : Platform} et (a : array) dims :
  prepare_output et (PyArray a) dims =
  if dtype_is (arr_dtype a) et then Ok a
  else Throw (runtime_error "unexpected data type for output array").
Proof.
  unfold prepare_output; simpl; now destruct (dtype_is (arr_dtype a) et).
Qed.

Lemma prepare_output_ok_inv {P : Platform} et (o res : array) dims :
  prepare_output et (PyArray o) dims = Ok res ->
  res = o /\ dtype_is (arr_dtype o) et = true.
Proof.
  rewrite prepare_output_array; destruct (dtype_is (arr_dtype o) et);
    intros H; inversion H; auto.
Qed.

Lemma DISPATCH_real_inv {P : Platform} {A : Type} (a : array)
  (func : prec -> result A) r :
  DISPATCH a f64 f32 flong func = Ok r ->
  exists T, arr_dtype a = Real T /\ func T = Ok r.
Proof.
  unfold DISPATCH; destruct (arr_dtype a) as [[]|[]|k]; simpl; intros H;
    try discriminate; eauto.
Qed.

Lemma DISPATCH_complex_inv {P : Platform} {A : Type} (a : array)
  (func : prec -> result A) r :
  DISPATCH a c128 c64 clong func = Ok r ->
  exists T, arr_dtype a = Complex T /\ func T = Ok r.
Proof.
  unfold DISPATCH; destruct (arr_dtype a) as [[]|[]|k]; simpl; intros H;
    try discriminate; eauto.
Qed.

(** Takes a successful run of one of the [*_internal] functions apart, down
    to the call of [prepare_output] on the caller's array. *)
Ltac reused_output H :=
  repeat (apply bind_ok_inv in H as (? & ? & H));
  match goal with
  | Hp : prepare_output _ (PyArray _) _ = Ok _ |- _ =>
      apply prepare_output_ok_inv in Hp as [-> Hp];
      apply dtype_is_supported in Hp; [|eexists; eauto]
  end;
  try match type of H with
  | (if ?c then _ else _) = _ => destruct c; [discriminate|];
      repeat (apply bind_ok_inv in H as (? & ? & H))
  end;
  inversion H; subst; simpl; auto.

Lemma dtype_is_other {P : Platform} (o : array) et :
  supported et -> arr_dtype o <> et -> dtype_is (arr_dtype o) et = false.
Proof.
  intros Hs Hne; destruct (dtype_is (arr_dtype o) et) eqn:E; [|reflexivity].
  apply dtype_is_supported in E; [contradiction|assumption].
Qed.

Lemma prepare_output_mismatch {P : Platform} et (o : array) dims :
  supported et -> arr_dtype o <> et ->
  prepare_output et (PyArray o) dims =
  Throw (runtime_error "unexpected data type for output array").
Proof.
  intros Hs Hne; rewrite prepare_output_array.
  now rewrite dtype_is_other.
Qed.

Lemma prepare_output_match_real {P : Platform} T (o : array) d0 dims :
  arr_payload o = real_data T d0 ->
  prepare_output (Real T) (PyArray o) dims = Ok o.
Proof.
  intros H; rewrite prepare_output_array, (dtype_of_real_data _ _ _ H).
  simpl; now rewrite prec_eqb_refl.
Qed.

Lemma prepare_output_match_cplx {P : Platform} T (o : array) d0 dims :
  arr_payload o = cplx_data T d0 ->
  prepare_output (Complex T) (PyArray o) dims = Ok o.
Proof.
  intros H; rewrite prepare_output_array, (dtype_of_cplx_data _ _ _ H).
  simpl; now rewrite prec_eqb_refl.
Qed.

(** Walks two runs of the same steps down to the first step that
    differs. *)
Ltac same_steps :=
  cbv zeta; unfold copy_shape, copy_strides;
  repeat match goal with
  | |- bind ?m _ = bind ?m _ => destruct m; cbn [bind]; [|reflexivity]
  end.

(** C7, as the code has it. An object given as [out] is used as the output
    exactly when it is an array of the required element type; it is then
    returned as it is, and its shape is not compared with the required one.
    Any other object makes [prepare_output] throw. In each of the six
    operations the call succeeds with a given [out] only if that array has
    the element type of the operation's result, and the result is then that
    array (same shape and strides) with the data written by the call; an
    array of another element type makes the operation throw "unexpected data
    type for output array" once the steps before [prepare_output] have
    passed; an array of the right element type is handed to the kernel (and
    to the loops after it) with its own strides and memory, whatever its
    shape. *)
Theorem prepare_output_reuse {P : Platform} et (out_ : pyobject) dims :
  supported et ->
  out_ <> PyNone ->
  (forall res, prepare_output et out_ dims = Ok res <->
               out_ = PyArray res /\ arr_dtype res = et) /\
  (forall a, out_ = PyArray a -> arr_dtype a <> et ->
     prepare_output et out_ dims =
     Throw (runtime_error "unexpected data type for output array")) /\
  (forall dims', prepare_output et out_ dims' = prepare_output et out_ dims) /\
  (forall in_ axes_ forward inorm nthreads o res,
     out_ = PyArray o ->
     c2c in_ axes_ forward inorm out_ nthreads = Ok res ->
     exists T, (arr_dtype in_ = Complex T \/ arr_dtype in_ = Real T) /\
       arr_dtype o = Complex T /\ arr_dtype res = Complex T /\
       arr_shape res = arr_shape o /\ arr_strides res = arr_strides o) /\
  (forall in_ axes_ forward inorm nthreads o res,
     out_ = PyArray o ->
     r2c in_ axes_ forward inorm out_ nthreads = Ok res ->
     exists T, arr_dtype in_ = Real T /\
       arr_dtype o = Complex T /\ arr_dtype res = Complex T /\
       arr_shape res = arr_shape o /\ arr_strides res = arr_strides o) /\
  (forall in_ axes_ lastsize forward inorm nthreads o res,
     out_ = PyArray o ->
     c2r in_ axes_ lastsize forward inorm out_ nthreads = Ok res ->
     exists T, arr_dtype in_ = Complex T /\
       arr_dtype o = Real T /\ arr_dtype res = Real T /\
       arr_shape res = arr_shape o /\ arr_strides res = arr_strides o) /\
  (forall in_ axes_ real2hermitian forward inorm nthreads o res,
     out_ = PyArray o ->
     r2r_fftpack in_ axes_ real2hermitian forward inorm out_ nthreads = Ok res ->
     exists T, arr_dtype in_ = Real T /\
       arr_dtype o = Real T /\ arr_dtype res = Real T /\
       arr_shape res = arr_shape o /\ arr_strides res = arr_strides o) /\
  (forall in_ axes_ inorm nthreads o res,
     out_ = PyArray o ->
     separable_hartley in_ axes_ inorm out_ nthreads = Ok res ->
     exists T, arr_dtype in_ = Real T /\
       arr_dtype o = Real T /\ arr_dtype res = Real T /\
       arr_shape res = arr_shape o /\ arr_strides res = arr_strides o) /\
  (forall in_ axes_ inorm nthreads o res,
     out_ = PyArray o ->
     genuine_hartley in_ axes_ inorm out_ nthreads = Ok res ->
     exists T, arr_dtype in_ = Real T /\
       arr_dtype o = Real T /\ arr_dtype res = Real T /\
       arr_shape res = arr_shape o /\ arr_strides res = arr_strides o) /\
  (let unexpected : result array :=
     Throw (runtime_error "unexpected data type for output array") in
   forall (in_ o : array) T axes_ forward inorm nthreads,
     out_ = PyArray o ->
     (forall d_in, arr_payload in_ = cplx_data T d_in ->
        (arr_dtype o <> Complex T ->
         c2c in_ axes_ forward inorm out_ nthreads =
         (let* _ := makeaxes in_ axes_ in unexpected)) /\
        (forall d0, arr_payload o = cplx_data T d0 ->
           c2c in_ axes_ forward inorm out_ nthreads =
           (let* axes := makeaxes in_ axes_ in
            let* fct := norm_fct inorm (arr_shape in_) axes in
            let* d' :=
              pocketfft_c2c T (arr_shape in_) (arr_strides in_)
                (arr_strides o) axes forward d_in d0 fct nthreads in
            Ok (with_cplx o T d'))) /\
        (forall lastsize, arr_dtype o <> Real T ->
           c2r in_ axes_ lastsize forward inorm out_ nthreads =
           (let* axes := makeaxes in_ axes_ in
            let* axis := back axes in
            let* n := at_index (arr_shape in_) axis in
            let* lastsize := resolve_lastsize lastsize n in
            let* _ := set_index (arr_shape in_) axis lastsize in
            unexpected)) /\
        (forall lastsize d0, arr_payload o = real_data T d0 ->
           c2r in_ axes_ lastsize forward inorm out_ nthreads =
           (let* axes := makeaxes in_ axes_ in
            let* axis := back axes in
            let* n := at_index (arr_shape in_) axis in
            let* lastsize := resolve_lastsize lastsize n in
            let* dims_out := set_index (arr_shape in_) axis lastsize in
            let* fct := norm_fct inorm dims_out axes in
            let* d' :=
              pocketfft_c2r T dims_out (arr_strides in_) (arr_strides o) axes
                forward d_in d0 fct nthreads in
            Ok (with_real o T d')))) /\
     (forall d_in, arr_payload in_ = real_data T d_in ->
        (arr_dtype o <> Complex T ->
         c2c in_ axes_ forward inorm out_ nthreads =
         (let* _ := makeaxes in_ axes_ in unexpected) /\
         r2c in_ axes_ forward inorm out_ nthreads =
         (let* axes := makeaxes in_ axes_ in
          let* last := back axes in
          let* n := at_index (arr_shape in_) last in
          let* _ :=
            set_index (arr_shape in_) last (wrap (Z.shiftr n 1 + 1)) in
          unexpected)) /\
        (forall d0, arr_payload o = cplx_data T d0 ->
           c2c in_ axes_ forward inorm out_ nthreads =
           (let* axes := makeaxes in_ axes_ in
            let* fct := norm_fct inorm (arr_shape in_) axes in
            let* K :=
              pocketfft_r2c T (arr_shape in_) (arr_strides in_)
                (arr_strides o) axes forward d_in d0 fct nthreads in
            let* iter :=
              rev_iter_new (mk_arr_info (arr_shape in_) (arr_strides o))
                axes in
            let* d' :=
              completed
                (fill_second_half (Z.to_nat (remaining iter)) iter K) in
            Ok (with_cplx o T d')) /\
           r2c in_ axes_ forward inorm out_ nthreads =
           (let* axes := makeaxes in_ axes_ in
            let* last := back axes in
            let* n := at_index (arr_shape in_) last in
            let* _ :=
              set_index (arr_shape in_) last (wrap (Z.shiftr n 1 + 1)) in
            let* fct := norm_fct inorm (arr_shape in_) axes in
            let* d' :=
              pocketfft_r2c T (arr_shape in_) (arr_strides in_)
                (arr_strides o) axes forward d_in d0 fct nthreads in
            Ok (with_cplx o T d'))) /\
        (arr_dtype o <> Real T ->
         (forall real2hermitian,
            r2r_fftpack in_ axes_ real2hermitian forward inorm out_ nthreads =
            (let* _ := makeaxes in_ axes_ in unexpected)) /\
         separable_hartley in_ axes_ inorm out_ nthreads = unexpected /\
         genuine_hartley in_ axes_ inorm out_ nthreads =
         (let* _ := r2c in_ axes_ true inorm PyNone nthreads in unexpected)) /\
        (forall d0, arr_payload o = real_data T d0 ->
           (forall real2hermitian,
              r2r_fftpack in_ axes_ real2hermitian forward inorm out_
                nthreads =
              (let* axes := makeaxes in_ axes_ in
               let* fct := norm_fct inorm (arr_shape in_) axes in
               let* d' :=
                 pocketfft_r2r_fftpack T (arr_shape in_) (arr_strides in_)
                   (arr_strides o) axes real2hermitian forward d_in d0 fct
                   nthreads in
               Ok (with_real o T d'))) /\
           separable_hartley in_ axes_ inorm out_ nthreads =
           (let* axes := makeaxes in_ axes_ in
            let* fct := norm_fct inorm (arr_shape in_) axes in
            let* d' :=
              pocketfft_r2r_separable_hartley T (arr_shape in_)
                (arr_strides in_) (arr_strides o) axes d_in d0 fct nthreads in
            Ok (with_real o T d')) /\
           genuine_hartley in_ axes_ inorm out_ nthreads =
           (let* tmp := r2c in_ axes_ true inorm PyNone nthreads in
            let* d_tmp := cplx_view T tmp in
            let* axes := makeaxes in_ axes_ in
            let iin :=
              simple_iter_new
                (mk_arr_info (arr_shape tmp) (arr_strides tmp)) in
            let* iout :=
              rev_iter_new (mk_arr_info (arr_shape o) (arr_strides o)) axes in
            if negb (si_remaining iin =? remaining iout)
            then Throw (runtime_error "oops")
            else
              let* d' :=
                completed
                  (hartley_loop (Z.to_nat (si_remaining iin)) d_tmp iin iout
                     d0) in
              Ok (with_real o T d'))))).
Proof.
  intros Hs Hout.
  split; [|split; [|split]].
  - intros res; split.
    + destruct out_ as [| | | |o|]; try congruence;
        try (unfold prepare_output; simpl; discriminate).
      intros H; apply prepare_output_ok_inv in H as [-> H].
      split; [reflexivity|]; now apply dtype_is_supported.
    + intros [-> H]; rewrite prepare_output_array.
      now rewrite (proj2 (dtype_is_supported _ _ Hs) H).
  - intros a -> Hne; rewrite prepare_output_array.
    destruct (dtype_is (arr_dtype a) et) eqn:E; [|reflexivity].
    apply dtype_is_supported in E; auto; contradiction.
  - intros dims'; destruct out_; congruence || reflexivity.
  - split; [|split; [|split; [|split; [|split; [|split]]]]].
    + intros in_ axes_ forward inorm nthreads o res -> H.
      unfold c2c in H; destruct (kind_is_c (arr_dtype in_)).
      * apply DISPATCH_complex_inv in H as (T & HT & H); exists T.
        unfold c2c_internal in H; reused_output H.
      * apply DISPATCH_real_inv in H as (T & HT & H); exists T.
        unfold c2c_sym_internal in H; reused_output H.
    + intros in_ axes_ forward inorm nthreads o res -> H.
      apply DISPATCH_real_inv in H as (T & HT & H); exists T.
      unfold r2c_internal in H; reused_output H.
    + intros in_ axes_ lastsize forward inorm nthreads o res -> H.
      apply DISPATCH_complex_inv in H as (T & HT & H); exists T.
      unfold c2r_internal in H; reused_output H.
    + intros in_ axes_ real2hermitian forward inorm nthreads o res -> H.
      apply DISPATCH_real_inv in H as (T & HT & H); exists T.
      unfold r2r_fftpack_internal in H; reused_output H.
    + intros in_ axes_ inorm nthreads o res -> H.
      apply DISPATCH_real_inv in H as (T & HT & H); exists T.
      unfold separable_hartley_internal in H; reused_output H.
    + intros in_ axes_ inorm nthreads o res -> H.
      unfold genuine_hartley in H.
      apply bind_ok_inv in H as (tmp & _ & H).
      apply DISPATCH_real_inv in H as (T & HT & H); exists T.
      unfold complex2hartley in H; reused_output H.
    + cbv zeta; intros in_ o T axes_ forward inorm nthreads ->.
      split.
      { intros d_in Hin.
        pose proof (dtype_of_cplx_data _ _ _ Hin) as Hdt.
        split; [|split; [|split]].
        - intros Hne; unfold c2c; rewrite Hdt; cbn [kind_is_c].
          rewrite (DISPATCH_complex _ T _ Hdt); unfold c2c_internal.
          same_steps.
          now rewrite prepare_output_mismatch
              by (assumption || (eexists; eauto)).
        - intros d0 Ho; unfold c2c; rewrite Hdt; cbn [kind_is_c].
          rewrite (DISPATCH_complex _ T _ Hdt); unfold c2c_internal.
          same_steps.
          rewrite (prepare_output_match_cplx _ _ _ _ Ho); cbn [bind].
          rewrite (cplx_view_data _ _ _ Hin), (cplx_view_data _ _ _ Ho).
          reflexivity.
        - intros lastsize Hne; unfold c2r.
          rewrite (DISPATCH_complex _ T _ Hdt); unfold c2r_internal.
          same_steps.
          now rewrite prepare_output_mismatch
              by (assumption || (eexists; eauto)).
        - intros lastsize d0 Ho; unfold c2r.
          rewrite (DISPATCH_complex _ T _ Hdt); unfold c2r_internal.
          same_steps.
          rewrite (prepare_output_match_real _ _ _ _ Ho); cbn [bind].
          rewrite (cplx_view_data _ _ _ Hin), (real_view_data _ _ _ Ho).
          reflexivity. }
      { intros d_in Hin.
        pose proof (dtype_of_real_data _ _ _ Hin) as Hdt.
        split; [|split; [|split]].
        - intros Hne; split.
          + unfold c2c; rewrite Hdt; cbn [kind_is_c].
            rewrite (DISPATCH_real _ T _ Hdt); unfold c2c_sym_internal.
            same_steps.
            now rewrite prepare_output_mismatch
              by (assumption || (eexists; eauto)).
          + unfold r2c.
            rewrite (DISPATCH_real _ T _ Hdt); unfold r2c_internal.
            same_steps.
            now rewrite prepare_output_mismatch
              by (assumption || (eexists; eauto)).
        - intros d0 Ho; split.
          + unfold c2c; rewrite Hdt; cbn [kind_is_c].
            rewrite (DISPATCH_real _ T _ Hdt); unfold c2c_sym_internal.
            same_steps.
            rewrite (prepare_output_match_cplx _ _ _ _ Ho); cbn [bind].
            rewrite (real_view_data _ _ _ Hin), (cplx_view_data _ _ _ Ho).
            reflexivity.
          + unfold r2c.
            rewrite (DISPATCH_real _ T _ Hdt); unfold r2c_internal.
            same_steps.
            rewrite (prepare_output_match_cplx _ _ _ _ Ho); cbn [bind].
            rewrite (real_view_data _ _ _ Hin), (cplx_view_data _ _ _ Ho).
            reflexivity.
        - intros Hne; split; [|split].
          + intros real2hermitian; unfold r2r_fftpack.
            rewrite (DISPATCH_real _ T _ Hdt); unfold r2r_fftpack_internal.
            same_steps.
            now rewrite prepare_output_mismatch
              by (assumption || (eexists; eauto)).
          + unfold separable_hartley.
            rewrite (DISPATCH_real _ T _ Hdt).
            unfold separable_hartley_internal.
            now rewrite prepare_output_mismatch
              by (assumption || (eexists; eauto)).
          + unfold genuine_hartley.
            same_steps.
            rewrite (DISPATCH_real _ T _ Hdt); unfold complex2hartley.
            now rewrite prepare_output_mismatch
              by (assumption || (eexists; eauto)).
        - intros d0 Ho; split; [|split].
          + intros real2hermitian; unfold r2r_fftpack.
            rewrite (DISPATCH_real _ T _ Hdt); unfold r2r_fftpack_internal.
            same_steps.
            rewrite (prepare_output_match_real _ _ _ _ Ho); cbn [bind].
            rewrite (real_view_data _ _ _ Hin), (real_view_data _ _ _ Ho).
            reflexivity.
          + unfold separable_hartley.
            rewrite (DISPATCH_real _ T _ Hdt).
            unfold separable_hartley_internal.
            rewrite (prepare_output_match_real _ _ _ _ Ho); cbn [bind].
            same_steps.
            rewrite (real_view_data _ _ _ Hin), (real_view_data _ _ _ Ho).
            reflexivity.
          + unfold genuine_hartley.
            same_steps.
            rewrite (DISPATCH_real _ T _ Hdt); unfold complex2hartley.
            rewrite (prepare_output_match_real _ _ _ _ Ho); cbn [bind].
            same_steps.
            rewrite (real_view_data _ _ _ Ho).
            reflexivity. }
Qed.

Lemma prepare_output_reuse_witness :
  @prepare_output toy f64 (PyArray toy_real3) [4] = Ok toy_real3 /\
  @prepare_output toy c128 (PyArray toy_real3) [3] =
  Throw (runtime_error "unexpected data type for output array") /\
  @r2r_fftpack toy toy_real4 PyNone true true 0 (PyArray toy_cplx3) 1 =
  Throw (runtime_error "unexpected data type for output array") /\
  @genuine_hartley toy toy_real4 PyNone 0 (PyArray toy_cplx3) 1 =
  Throw (runtime_error "unexpected data type for output array") /\
  @r2c toy toy_real4 PyNone true 0 (PyArray toy_real3) 1 =
  Throw (runtime_error "unexpected data type for output array") /\
  (exists res,
     @separable_hartley toy toy_real4 PyNone 0 (PyArray toy_real3) 1 =
     Ok res /\
     arr_shape res = [3] /\ arr_shape toy_real4 = [4]) /\
  (exists res,
     @r2c toy toy_real4 PyNone true 0 (PyArray toy_cplx5) 1 = Ok res /\
     arr_shape res = [5]) /\
  @genuine_hartley toy toy_real4 PyNone 0 (PyArray toy_real3) 1 =
  Throw (runtime_error "oops").
Proof.
  split; [|split; [|split; [|split; [|split; [|split; [|split]]]]]].
  - destruct (@prepare_output_reuse toy f64 (PyArray toy_real3) [4])
      as (Hiff & _).
    + exists Pdouble; now left.
    + discriminate.
    + apply Hiff; split; reflexivity.
  - destruct (@prepare_output_reuse toy c128 (PyArray toy_real3) [3])
      as (_ & Hbad & _).
    + exists Pdouble; now right.
    + discriminate.
    + apply (Hbad toy_real3); [reflexivity | discriminate].
  - destruct (@prepare_output_reuse toy f64 (PyArray toy_cplx3) [4])
      as (_ & _ & _ & _ & _ & _ & _ & _ & _ & Hops).
    + exists Pdouble; now left.
    + discriminate.
    + destruct (Hops toy_real4 toy_cplx3 Pdouble PyNone true 0 1 eq_refl)
        as [_ Hreal].
      destruct (Hreal _ eq_refl) as (_ & _ & Hmis & _).
      destruct Hmis as (Hr & _ & _); [discriminate|].
      rewrite Hr; reflexivity.
  - destruct (@prepare_output_reuse toy f64 (PyArray toy_cplx3) [4])
      as (_ & _ & _ & _ & _ & _ & _ & _ & _ & Hops).
    + exists Pdouble; now left.
    + discriminate.
    + destruct (Hops toy_real4 toy_cplx3 Pdouble PyNone true 0 1 eq_refl)
        as [_ Hreal].
      destruct (Hreal _ eq_refl) as (_ & _ & Hmis & _).
      destruct Hmis as (_ & _ & Hg); [discriminate|].
      rewrite Hg; reflexivity.
  - destruct (@prepare_output_reuse toy c128 (PyArray toy_real3) [3])
      as (_ & _ & _ & _ & _ & _ & _ & _ & _ & Hops).
    + exists Pdouble; now right.
    + discriminate.
    + destruct (Hops toy_real4 toy_real3 Pdouble PyNone true 0 1 eq_refl)
        as [_ Hreal].
      destruct (Hreal _ eq_refl) as (Hmis & _).
      destruct Hmis as (_ & Hr); [discriminate|].
      rewrite Hr; reflexivity.
  - destruct (@prepare_output_reuse toy f64 (PyArray toy_real3) [4])
      as (_ & _ & _ & _ & _ & _ & _ & _ & _ & Hops).
    + exists Pdouble; now left.
    + discriminate.
    + destruct (Hops toy_real4 toy_real3 Pdouble PyNone true 0 1 eq_refl)
        as [_ Hreal].
      destruct (Hreal _ eq_refl) as (_ & _ & _ & Hok).
      destruct (Hok _ eq_refl) as (_ & Hs & _).
      eexists; split; [rewrite Hs; reflexivity|split; reflexivity].
  - destruct (@prepare_output_reuse toy c128 (PyArray toy_cplx5) [3])
      as (_ & _ & _ & _ & _ & _ & _ & _ & _ & Hops).
    + exists Pdouble; now right.
    + discriminate.
    + destruct (Hops toy_real4 toy_cplx5 Pdouble PyNone true 0 1 eq_refl)
        as [_ Hreal].
      destruct (Hreal _ eq_refl) as (_ & Hok & _).
      destruct (Hok _ eq_refl) as (_ & Hr).
      eexists; split; [rewrite Hr; reflexivity|reflexivity].
  - destruct (@prepare_output_reuse toy f64 (PyArray toy_real3) [4])
      as (_ & _ & _ & _ & _ & _ & _ & _ & _ & Hops).
    + exists Pdouble; now left.
    + discriminate.
    + destruct (Hops toy_real4 toy_real3 Pdouble PyNone true 0 1 eq_refl)
        as [_ Hreal].
      destruct (Hreal _ eq_refl) as (_ & _ & _ & Hok).
      destruct (Hok _ eq_refl) as (_ & _ & Hg).
      rewrite Hg; reflexivity.
Defined.

(** C7 as stated fails: an array of the right element type and of shape
    [(3,)] is accepted where the required shape is [(4,)], by
    [prepare_output] and so by a whole transform of a length-4 input. *)
Lemma prepare_output_ignores_shape :
  @prepare_output toy f64 (PyArray toy_real3) [4] = Ok toy_real3 /\
  arr_shape toy_real3 <> [4] /\
  exists res,
    @r2r_fftpack toy toy_real4 PyNone true true 0 (PyArray toy_real3) 1 =
    Ok res /\
    arr_shape res = [3] /\ arr_shape toy_real4 = [4].
Proof.
  split; [reflexivity|split; [discriminate|]].
  eexists; split; [reflexivity|split; reflexivity].
Qed.

(** C8, as the code has it. Without an [out] argument [prepare_output]
    returns a new array of exactly the required shape and element type, with
    C-contiguous strides; it writes nothing to it, so the elements are
    whatever the block obtained by the constructor holds. *)
Theorem prepare_output_allocates {P : Platform} et dims :
  supported et ->
  exists res,
    prepare_output et PyNone dims = Ok res /\
    arr_shape res = dims /\
    arr_dtype res = et /\
    arr_strides res = c_strides (itemsize et) dims /\
    (forall T, et = Real T ->
       arr_payload res = real_data T (uninit_real T dims)) /\
    (forall T, et = Complex T ->
       arr_payload res = cplx_data T (uninit_cplx T dims)).
Proof.
  intros [T [-> | ->]]; eexists; (split; [reflexivity|]);
    repeat split; intros T' E; inversion E; subst; reflexivity.
Qed.

Lemma prepare_output_allocates_witness :
  exists res,
    @prepare_output toy c64 PyNone [2; 3] = Ok res /\
    arr_shape res = [2; 3] /\ arr_strides res = [24; 8].
Proof.
  destruct (@prepare_output_allocates toy c64 [2; 3]) as (res & H & Hs & _ & Hst & _).
  - exists Pfloat; now right.
  - exists res; split; [exact H|split; [exact Hs|exact Hst]].
Defined.

(** C8 as stated fails: on a platform whose allocator hands out a block
    that holds sevens, the new float64 array of shape [(2,)] reads [7], not
    [0], at its second element. *)
Lemma prepare_output_not_zeroed :
  exists res d,
    @prepare_output toy f64 PyNone [2] = Ok res /\
    arr_payload res = @real_data toy Pdouble d /\
    In [1] (positions [2]) /\
    d (offset (arr_strides res) [1]) = 7 /\
    d (offset (arr_strides res) [1]) <> 0.
Proof.
  do 2 eexists; split; [reflexivity|split; [reflexivity|]].
  split; [simpl; auto|split; [reflexivity|discriminate]].
Qed.

(** ** The module definition *)




(** ** Indices, mirrors and offsets *)

Lemma NoDup_iota n : NoDup (iota n).
Proof.
  unfold iota; generalize (seq_NoDup (Z.to_nat n) 0).
  induction 1 as [|k l Hk _ IH]; simpl; constructor; auto.
  rewrite in_map_iff; intros (j & E & Hj); apply Nat2Z.inj in E; now subst.
Qed.

Lemma in_positions shp p : In p (positions shp) <-> in_box shp p.
Proof.
  revert p; induction shp as [|n shp IH]; intros p; simpl.
  - split; [intros [<- | []]; constructor | inversion 1; auto].
  - rewrite in_flat_map; split.
    + intros (i & Hi & Hp); apply in_map_iff in Hp as (q & <- & Hq).
      constructor; [now apply in_iota | now apply IH].
    + inversion 1 as [|? i ? q Hi Hq]; subst.
      exists i; split; [now apply in_iota|].
      apply in_map_iff; exists q; split; [reflexivity | now apply IH].
Qed.

Lemma NoDup_positions shp : NoDup (positions shp).
Proof.
  induction shp as [|n shp IH]; simpl; [repeat constructor; simpl; tauto|].
  generalize (NoDup_iota n); induction 1 as [|i l Hi _ IHl]; simpl;
    [constructor|].
  apply NoDup_app; auto.
  - clear -IH; induction IH as [|q l Hq _ IHq]; simpl; constructor; auto.
    rewrite in_map_iff; intros (r & E & Hr); inversion E; now subst.
  - intros p Hp Hp'; apply in_map_iff in Hp as (q & <- & _).
    apply in_flat_map in Hp' as (j & Hj & Hq).
    apply in_map_iff in Hq as (r & E & _); inversion E; now subst.
Qed.

Lemma length_positions shp :
  Forall (fun n => 0 <= n) shp ->
  Z.of_nat (length (positions shp)) = fold_right Z.mul 1 shp.
Proof.
  induction 1 as [|n shp Hn _ IH]; simpl; [reflexivity|].
  rewrite <- IH; clear IH.
  assert (E : forall l,
    length (flat_map (fun i => map (cons i) (positions shp)) l) =
    (length l * length (positions shp))%nat).
  { induction l as [|i l IHl]; simpl; [reflexivity|].
    now rewrite length_app, length_map, IHl. }
  rewrite E, length_iota; lia.
Qed.

Lemma mirror_index_range n i : 0 <= i < n -> 0 <= (n - i) mod n < n.
Proof. intros H; apply Z.mod_pos_bound; lia. Qed.

Lemma mirror_index_involutive n i :
  0 <= i < n -> (n - (n - i) mod n) mod n = i.
Proof.
  intros H; destruct (Z.eq_dec i 0) as [->|Hi].
  - rewrite Z.sub_0_r, Z.mod_same, Z.sub_0_r, Z.mod_same; lia.
  - rewrite (Z.mod_small (n - i)) by lia.
    replace (n - (n - i)) with i by lia; apply Z.mod_small; lia.
Qed.

Lemma mirror_in_box shape rev p :
  length rev = length shape ->
  in_box shape p -> in_box shape (mirror shape rev p).
Proof.
  intros Hlen H; revert rev Hlen.
  induction H as [|n i shape p Hi _ IH]; intros [|r rev] Hlen;
    simpl in *; try discriminate; constructor.
  - destruct r; [now apply mirror_index_range | assumption].
  - apply IH; congruence.
Qed.

Lemma mirror_involutive shape rev p :
  length rev = length shape ->
  in_box shape p -> mirror shape rev (mirror shape rev p) = p.
Proof.
  intros Hlen H; revert rev Hlen.
  induction H as [|n i shape p Hi _ IH]; intros [|r rev] Hlen;
    simpl in *; try discriminate; [reflexivity|].
  f_equal; [|apply IH; congruence].
  destruct r; [now apply mirror_index_involutive | reflexivity].
Qed.

(** The forward half is inside the full extent... *)
Lemma half_in_box shape k p :
  (k < length shape)%nat ->
  in_box (set_nth shape k (nth k shape 0 / 2 + 1)) p ->
  0 < nth k shape 0 ->
  in_box shape p.
Proof.
  revert k p; induction shape as [|n shape IH]; intros k p Hk H Hn;
    simpl in *; [lia|].
  destruct k as [|k]; inversion H as [|? i ? q Hi Hq]; subst; constructor;
    auto.
  - revert Hi; Z.to_euclidean_division_equations; lia.
  - apply (IH k); auto; lia.
Qed.

(** ... and every index of the full extent is in it or has its mirror in
    it, the halved axis being one of the reflected ones. *)
Lemma half_covers shape rev k p :
  length rev = length shape ->
  (k < length shape)%nat ->
  nth k rev false = true ->
  in_box shape p ->
  in_box (set_nth shape k (nth k shape 0 / 2 + 1)) p \/
  in_box (set_nth shape k (nth k shape 0 / 2 + 1)) (mirror shape rev p).
Proof.
  intros Hlen Hk Hrev H; revert rev k Hlen Hk Hrev.
  induction H as [|n i shape p Hi Hp IH]; intros [|r rev] k Hlen Hk Hrev;
    simpl in *; try discriminate; try lia.
  destruct k as [|k]; simpl in *.
  - subst r.
    destruct (Z_le_gt_dec i (n / 2)) as [Hle|Hgt].
    + left; constructor; [lia | assumption].
    + right; constructor; [|apply mirror_in_box; [congruence|assumption]].
      assert (Hpos : 0 < i)
        by (revert Hgt; Z.to_euclidean_division_equations; lia).
      rewrite Z.mod_small by lia.
      revert Hgt; Z.to_euclidean_division_equations; lia.
  - destruct (IH rev k) as [Hl|Hr]; try congruence; try lia.
    + left; now constructor.
    + right; constructor; [|assumption].
      destruct r; [now apply mirror_index_range | assumption].
Qed.

Lemma nth_rev_axes nd axes k :
  (k < nd)%nat ->
  nth k (rev_axes nd axes) false = existsb (Z.eqb (Z.of_nat k)) axes.
Proof.
  intros Hk; unfold rev_axes.
  rewrite nth_indep with (d' := existsb (Z.eqb (Z.of_nat 0)) axes)
    by (rewrite length_map, length_seq; lia).
  rewrite (map_nth (fun k => existsb (Z.eqb (Z.of_nat k)) axes)).
  now rewrite seq_nth by lia.
Qed.

Lemma length_rev_axes nd axes : length (rev_axes nd axes) = nd.
Proof. unfold rev_axes; now rewrite length_map, length_seq. Qed.

Lemma back_in axes last : back axes = Ok last -> In last axes.
Proof.
  destruct axes as [|a axes]; [discriminate|].
  intros H; inversion H; subst.
  clear H; revert a; induction axes as [|b axes IH]; intros a;
    [now left | right; apply IH].
Qed.

Lemma back_is_reflected nd axes last :
  back axes = Ok last -> 0 <= last < Z.of_nat nd ->
  nth (Z.to_nat last) (rev_axes nd axes) false = true.
Proof.
  intros Hb Hr; rewrite nth_rev_axes by lia.
  apply existsb_exists; exists last; split; [now apply back_in|].
  apply Z.eqb_eq; lia.
Qed.

(** ** The second-half loop *)

Lemma store_same {A : Type} (m : Z -> A) o v : store m o v o = v.
Proof. unfold store; now rewrite Z.eqb_refl. Qed.

Lemma store_other {A : Type} (m : Z -> A) o v o' :
  o' <> o -> store m o v o' = m o'.
Proof. intros H; unfold store; now destruct (Z.eqb_spec o' o). Qed.

(** The loop, given enough iterations, returns, and what it returns is the
    memory after one [fill_step] per index left to visit, in order. *)
Lemma fill_second_half_run {P : Platform} arr rev todo m fuel :
  (length todo <= fuel)%nat ->
  fill_second_half fuel (mk_rev_iter arr rev todo) m =
  Some (fold_left (fill_step arr rev) todo m).
Proof.
  revert fuel m; induction todo as [|p todo IH]; intros fuel m Hfuel.
  - destruct fuel; reflexivity.
  - destruct fuel as [|fuel]; simpl in Hfuel; [lia|].
    cbn [fill_second_half]; unfold remaining at 1; cbn [ri_todo length].
    destruct (Z.gtb_spec (Z.of_nat (S (length todo))) 0); [|lia].
    unfold advance; cbn [ri_arr ri_rev_axis ri_todo tl fold_left].
    rewrite IH by lia; reflexivity.
Qed.

Section MirrorFill.

Context {P : Platform}.
Variables (arr : arr_info) (rev : list bool).

Let off (p : list Z) : Z := offset (ai_stride arr) p.
Let mir (p : list Z) : list Z := mirror (ai_shape arr) rev p.
Let valid (p : list Z) : Prop := in_box (ai_shape arr) p.

Hypothesis rev_length : length rev = length (ai_shape arr).
Hypothesis neg_involutive : forall x : scalar, s_neg (s_neg x) = x.
Hypothesis offsets_distinct :
  forall p q, valid p -> valid q -> off p = off q -> p = q.

Lemma conj_involutive (v : cmplx) : conj (conj v) = v.
Proof. destruct v; unfold conj; simpl; now rewrite neg_involutive. Qed.

Lemma mir_valid p : valid p -> valid (mir p).
Proof. now apply mirror_in_box. Qed.

Lemma mir_mir p : valid p -> mir (mir p) = p.
Proof. now apply mirror_involutive. Qed.

Lemma mir_injective p q : valid p -> valid q -> mir p = mir q -> p = q.
Proof.
  intros Hp Hq E; rewrite <- (mir_mir p), <- (mir_mir q) by assumption.
  now rewrite E.
Qed.

(** The state of the memory after the indices of [L] have been visited:
    every visited index that is not its own mirror has the conjugate of its
    value at its mirror; a visited index that is its own mirror holds the
    conjugate of what it held at the start; and an index whose mirror has not
    been visited holds what it held at the start. *)
Lemma fill_invariant_holds L m0 :
  NoDup L -> (forall p, In p L -> valid p) ->
  let m := fold_left (fill_step arr rev) L m0 in
  (forall a, In a L -> mir a <> a -> m (off (mir a)) = conj (m (off a))) /\
  (forall a, In a L -> mir a = a -> m (off a) = conj (m0 (off a))) /\
  (forall a, valid a -> ~ In (mir a) L -> m (off a) = m0 (off a)).
Proof.
  induction L as [|p L IH] using rev_ind; intros Hnd Hval.
  - repeat split; simpl; intros; tauto.
  - assert (HndL : NoDup L) by now apply NoDup_app_remove_r in Hnd.
    assert (HpL : ~ In p L).
    { intros Hin; apply NoDup_remove_2 in Hnd; rewrite app_nil_r in Hnd.
      contradiction. }
    assert (HvalL : forall q, In q L -> valid q)
      by (intros q Hq; apply Hval, in_or_app; now left).
    assert (Hp : valid p) by (apply Hval, in_or_app; right; now left).
    destruct (IH HndL HvalL) as (I1 & I2 & I3).
    rewrite fold_left_app; cbn [fold_left].
    set (m := fold_left (fill_step arr rev) L m0) in *.
    unfold fill_step; fold (off p) (mir p) (off (mir p)).
    repeat split.
    + intros a Ha Hne; apply in_app_or in Ha as [Ha | [<- | []]].
      * assert (Hva : valid a) by auto.
        rewrite store_other.
        2:{ intros E; apply offsets_distinct in E; auto using mir_valid.
            apply mir_injective in E; auto; congruence. }
        destruct (Z.eq_dec (off a) (off (mir p))) as [E|E].
        -- rewrite E, store_same.
           apply offsets_distinct in E; auto using mir_valid; subst a.
           rewrite mir_mir by assumption.
           now rewrite conj_involutive.
        -- rewrite store_other by assumption; now apply I1.
      * rewrite store_same, store_other; [reflexivity|].
        intros E; apply offsets_distinct in E; auto using mir_valid.
    + intros a Ha Hfix; apply in_app_or in Ha as [Ha | [<- | []]].
      * rewrite store_other; [now apply I2|].
        intros E; apply offsets_distinct in E; auto using mir_valid.
        subst a; rewrite mir_mir in Hfix by assumption.
        rewrite <- Hfix in Ha; contradiction.
      * rewrite Hfix, store_same; f_equal; apply I3; auto.
        now rewrite Hfix.
    + intros a Hva Hnot.
      rewrite store_other; [apply I3; auto; intros Hin; apply Hnot, in_or_app; now left|].
      intros E; apply offsets_distinct in E; auto using mir_valid.
      apply Hnot, in_or_app; right; left.
      subst a; now rewrite mir_mir.
Qed.

(** When the visited indices are a half that covers the extent, the pass
    leaves every pair of mirror images conjugate to each other, and an index
    that is its own mirror with the conjugate of what the kernel wrote. *)
Lemma fill_makes_mirrors_conjugate L m0 :
  NoDup L -> (forall p, In p L -> valid p) ->
  (forall q, valid q -> In q L \/ In (mir q) L) ->
  forall q, valid q ->
    (mir q <> q ->
     fold_left (fill_step arr rev) L m0 (off (mir q)) =
     conj (fold_left (fill_step arr rev) L m0 (off q))) /\
    (mir q = q ->
     fold_left (fill_step arr rev) L m0 (off q) = conj (m0 (off q))).
Proof.
  intros Hnd Hval Hcov q Hq.
  destruct (fill_invariant_holds L m0 Hnd Hval) as (I1 & I2 & _).
  split.
  - intros Hne; destruct (Hcov q Hq) as [Hin | Hin]; [now apply I1|].
    assert (E : mir (mir q) <> mir q) by (rewrite mir_mir; congruence).
    apply (I1 (mir q) Hin) in E; rewrite mir_mir in E by assumption.
    now rewrite E, conj_involutive.
  - intros Hfix; apply I2; auto.
    destruct (Hcov q Hq) as [Hin | Hin]; [|rewrite Hfix in Hin]; assumption.
Qed.

End MirrorFill.

(** ** C-contiguous strides address distinct elements *)

Lemma offset_c_strides_range isz shape p :
  in_box shape p ->
  exists k, offset (c_strides isz shape) p = isz * k /\
            0 <= k < fold_right Z.mul 1 shape.
Proof.
  induction 1 as [|n i shape p Hi _ (k & Ek & Hk)]; simpl.
  - exists 0; split; lia.
  - exists (i * fold_right Z.mul 1 shape + k); split; [rewrite Ek; ring|].
    nia.
Qed.

Lemma c_strides_distinct isz shape p q :
  isz <> 0 ->
  in_box shape p -> in_box shape q ->
  offset (c_strides isz shape) p = offset (c_strides isz shape) q -> p = q.
Proof.
  intros Hisz Hp; revert q.
  induction Hp as [|n i shape p Hi Hp IH]; intros q Hq E;
    inversion Hq as [|? j ? q' Hj Hq']; subst; [reflexivity|].
  simpl in E.
  destruct (offset_c_strides_range isz shape p Hp) as (k & Ek & Hk).
  destruct (offset_c_strides_range isz shape q' Hq') as (k' & Ek' & Hk').
  assert (Eij : i = j).
  { rewrite Ek, Ek' in E.
    assert (E' : i * fold_right Z.mul 1 shape + k =
                 j * fold_right Z.mul 1 shape + k')
      by (apply (Z.mul_reg_l _ _ isz); [assumption|lia]).
    nia. }
  subst j; f_equal; apply IH; auto; lia.
Qed.

Lemma firstn_snoc {A : Type} (l : list A) k d :
  (k < length l)%nat -> firstn (S k) l = (firstn k l ++ [nth k l d])%list.
Proof.
  revert k; induction l as [|x l IH]; intros k Hk; simpl in Hk; [lia|].
  destruct k as [|k]; [reflexivity|].
  cbn [firstn nth app]; f_equal; apply IH; lia.
Qed.

Lemma in_box_positive shape p k :
  in_box shape p -> (k < length shape)%nat -> 0 < nth k shape 0.
Proof.
  intros H; revert k; induction H as [|n i shape p Hi _ IH]; intros k Hk;
    simpl in Hk; [lia|].
  destruct k as [|k]; simpl; [lia | apply IH; lia].
Qed.

(** ** Complex transform of a real input *)

(** C1. For a real input (float32, float64 or long double) [c2c] takes the
    symmetric path: the real-to-complex kernel runs into a complex output
    which, when allocated here, has the full shape of the input; then, for
    each index the mirror iterator visits in the forward half, the element
    at the mirror offset is set to the conjugate of the element at the
    forward offset. Afterwards every element of the output is the conjugate
    of its mirror image across the transformed axes; for an element that is
    its own mirror image this is because the kernel left it self-conjugate,
    as the spectrum of a real signal is. *)
Theorem c2c_real_input_symmetric {P : Platform} T (in_ : array) d_in axes_
  forward inorm out_ nthreads axes last n res0 d0 fct K :
  arr_payload in_ = real_data T d_in ->
  makeaxes in_ axes_ = Ok axes ->
  back axes = Ok last ->
  at_index (arr_shape in_) last = Ok n ->
  prepare_output (Complex T) out_ (arr_shape in_) = Ok res0 ->
  cplx_view T res0 = Ok d0 ->
  norm_fct inorm (arr_shape in_) axes = Ok fct ->
  pocketfft_r2c T (arr_shape in_) (arr_strides in_) (arr_strides res0) axes
    forward d_in d0 fct nthreads = Ok K ->
  let dims := arr_shape in_ in
  let ares := mk_arr_info dims (arr_strides res0) in
  let rev := rev_axes (length dims) axes in
  let half := positions (set_nth dims (Z.to_nat last) (n / 2 + 1)) in
  let off := offset (arr_strides res0) in
  let final := fold_left (fill_step ares rev) half K in
  c2c in_ axes_ forward inorm out_ nthreads =
  c2c_sym_internal T in_ axes_ forward inorm out_ nthreads /\
  c2c in_ axes_ forward inorm out_ nthreads = Ok (with_cplx res0 T final) /\
  (out_ = PyNone ->
   arr_shape res0 = dims /\ arr_dtype res0 = Complex T /\
   (0 < sizeof_T T ->
    forall p q, in_box dims p -> in_box dims q -> off p = off q -> p = q)) /\
  (forall k, (k < length half)%nat ->
     let p := nth k half [] in
     let before := fold_left (fill_step ares rev) (firstn k half) K in
     fold_left (fill_step ares rev) (firstn (S k) half) K =
     store before (off (mirror dims rev p)) (conj (before (off p)))) /\
  ((forall x : scalar, s_neg (s_neg x) = x) ->
   (forall p q, in_box dims p -> in_box dims q -> off p = off q -> p = q) ->
   (forall q, in_box dims q -> mirror dims rev q <> q ->
      final (off (mirror dims rev q)) = conj (final (off q))) /\
   (forall q, in_box dims q -> mirror dims rev q = q ->
      final (off q) = conj (K (off q))) /\
   ((forall q, in_box dims q -> mirror dims rev q = q ->
       conj (K (off q)) = K (off q)) ->
    forall q, in_box dims q ->
      final (off (mirror dims rev q)) = conj (final (off q)))).
Proof.
  intros Hdata Hax Hback Hn Hprep Hview Hfct Hk dims ares rev half off final.
  pose proof (at_index_inv _ _ _ Hn) as [Hlast Hnth].
  assert (Hdisp :
    c2c in_ axes_ forward inorm out_ nthreads =
    c2c_sym_internal T in_ axes_ forward inorm out_ nthreads).
  { unfold c2c; rewrite (dtype_of_real_data _ _ _ Hdata); simpl kind_is_c.
    cbv iota.
    now rewrite (DISPATCH_real _ T _ (dtype_of_real_data _ _ _ Hdata)). }
  split; [exact Hdisp|split; [|split; [|split]]].
  - rewrite Hdisp; unfold c2c_sym_internal, copy_shape, copy_strides.
    rewrite Hax; cbn [bind]; rewrite Hprep; cbn [bind].
    rewrite (real_view_data _ _ _ Hdata); cbn [bind].
    rewrite Hview; cbn [bind]; rewrite Hfct; cbn [bind].
    rewrite Hk; cbn [bind].
    unfold rev_iter_new; cbn [ai_shape].
    rewrite Hback; cbn [bind]; rewrite Hn; cbn [bind].
    rewrite set_index_in_range by assumption; cbn [bind].
    unfold remaining at 1; cbn [ri_todo]; rewrite Nat2Z.id.
    rewrite fill_second_half_run by lia; reflexivity.
  - intros ->; unfold prepare_output in Hprep; cbn [is_None] in Hprep.
    inversion Hprep; subst res0.
    split; [reflexivity|split; [reflexivity|]].
    intros Hsz p q Hp Hq; unfold off, array_t_new, arr_strides, itemsize.
    apply c_strides_distinct; auto; lia.
  - intros k Hlt p before.
    rewrite (firstn_snoc half k []) by assumption.
    rewrite fold_left_app; reflexivity.
  - intros Hneg Hinj; fold dims in Hlast, Hnth.
    assert (Hmain : forall q, in_box dims q ->
      (mirror dims rev q <> q ->
       final (off (mirror dims rev q)) = conj (final (off q))) /\
      (mirror dims rev q = q -> final (off q) = conj (K (off q)))).
    { intros q Hq.
      assert (Hpos : 0 < nth (Z.to_nat last) dims 0)
        by (apply (in_box_positive dims q); [assumption|lia]).
      apply (fill_makes_mirrors_conjugate ares rev); auto.
      - apply length_rev_axes.
      - apply NoDup_positions.
      - intros p Hp; apply in_positions in Hp.
        apply (half_in_box dims (Z.to_nat last)); [lia| |assumption].
        now rewrite <- Hnth.
      - intros r Hr; unfold half; rewrite !in_positions, Hnth.
        cbn [ai_shape ares] in *.
        apply half_covers; auto; [apply length_rev_axes|lia|].
        apply back_is_reflected; auto. }
    split; [|split].
    + intros q Hq; now apply Hmain.
    + intros q Hq; now apply Hmain.
    + intros Hself q Hq.
      destruct (list_eq_dec Z.eq_dec (mirror dims rev q) q) as [E|E].
      * rewrite E; destruct (Hmain q Hq) as [_ Hfix].
        rewrite (Hfix E), (Hself q Hq E); now rewrite Hself.
      * now apply Hmain.
Qed.

Lemma c2c_real_input_symmetric_witness :
  exists res d,
    @c2c toy toy_real4 PyNone true 0 PyNone 1 = Ok res /\
    arr_shape res = [4] /\
    arr_payload res = @cplx_data toy Pdouble d /\
    d 16 = (20, 3) /\ d 48 = (20, -3) /\
    forall i, 0 <= i < 4 -> d (16 * ((4 - i) mod 4)) = @conj toy (d (16 * i)).
Proof.
  destruct (@c2c_real_input_symmetric toy Pdouble toy_real4 _ PyNone true 0
              PyNone 1 [0] 0 4 _ _ fct_one _
              eq_refl eq_refl eq_refl eq_refl eq_refl eq_refl eq_refl eq_refl)
    as (_ & Hcall & Hnew & _ & Hsym).
  destruct (Hnew eq_refl) as (_ & _ & Hinj).
  destruct (Hsym Z.opp_involutive (Hinj eq_refl)) as (_ & _ & Hherm).
  do 2 eexists; split; [exact Hcall|].
  split; [reflexivity|split; [reflexivity|]].
  split; [reflexivity|split; [reflexivity|]].
  intros i Hi.
  assert (Hbox : in_box [4] [i]) by (repeat constructor; lia).
  specialize (Hherm
    ltac:(intros q Hq Hm; inversion Hq as [|? j ? ? Hj Hnil]; subst;
          inversion Hnil; subst;
          assert (Ej : j = 0 \/ j = 1 \/ j = 2 \/ j = 3) by lia;
          destruct Ej as [-> | [-> | [-> | ->]]];
          try (vm_compute in Hm; discriminate Hm); reflexivity)
    [i] Hbox).
  cbn [mirror rev_axes] in Hherm.
  simpl offset in Hherm.
  replace (16 * ((4 - i) mod 4)) with ((4 - i) mod 4 * 16 + 0) by lia.
  replace (16 * i) with (i * 16 + 0) by lia.
  exact Hherm.
Defined.

(** ** The Hartley folding pass *)

Lemma tl_skipn {A : Type} k (l : list A) : tl (skipn k l) = skipn (S k) l.
Proof.
  revert l; induction k as [|k IH]; intros [|x l]; simpl; auto.
Qed.

Lemma si_todo_advance_n {P : Platform} k it :
  si_todo (si_advance_n k it) = skipn k (si_todo it).
Proof.
  induction k as [|k IH]; [reflexivity|].
  change (si_advance_n (S k) it) with (si_advance (si_advance_n k it)).
  unfold si_advance; cbn [si_todo]; now rewrite IH, tl_skipn.
Qed.

Lemma ri_todo_advance_n {P : Platform} k it :
  ri_todo (advance_n k it) = skipn k (ri_todo it).
Proof.
  induction k as [|k IH]; [reflexivity|].
  change (advance_n (S k) it) with (advance (advance_n k it)).
  unfold advance; cbn [ri_todo]; now rewrite IH, tl_skipn.
Qed.

Lemma si_arr_advance_n {P : Platform} k it :
  si_arr (si_advance_n k it) = si_arr it.
Proof.
  induction k as [|k IH]; [reflexivity|].
  change (si_advance_n (S k) it) with (si_advance (si_advance_n k it)).
  unfold si_advance; cbn [si_arr]; exact IH.
Qed.

Lemma ri_arr_advance_n {P : Platform} k it :
  ri_arr (advance_n k it) = ri_arr it /\
  ri_rev_axis (advance_n k it) = ri_rev_axis it.
Proof.
  induction k as [|k IH]; [split; reflexivity|].
  change (advance_n (S k) it) with (advance (advance_n k it)).
  unfold advance; cbn [ri_arr ri_rev_axis]; exact IH.
Qed.

(** Each [advance] takes one off the remaining count, down to zero. *)
Lemma si_remaining_advance_n {P : Platform} k it :
  si_remaining (si_advance_n k it) = Z.max 0 (si_remaining it - Z.of_nat k).
Proof.
  unfold si_remaining; rewrite si_todo_advance_n, length_skipn; lia.
Qed.

Lemma remaining_advance_n {P : Platform} k it :
  remaining (advance_n k it) = Z.max 0 (remaining it - Z.of_nat k).
Proof.
  unfold remaining; rewrite ri_todo_advance_n, length_skipn; lia.
Qed.

(** The loop, given enough iterations and iterators with equally many
    indices left, returns the memory after one [hartley_step] per pair of
    indices, in order. *)
Lemma hartley_loop_run {P : Platform} atmp d_tmp aout rev tin tout m fuel :
  length tin = length tout ->
  (length tin <= fuel)%nat ->
  hartley_loop fuel d_tmp (mk_simple_iter atmp tin) (mk_rev_iter aout rev tout)
    m =
  Some (fold_left (hartley_step atmp d_tmp aout rev) (combine tin tout) m).
Proof.
  revert tout fuel m; induction tin as [|p tin IH]; intros tout fuel m Hlen Hfuel.
  - destruct fuel; reflexivity.
  - destruct tout as [|q tout]; [discriminate|].
    destruct fuel as [|fuel]; simpl in Hfuel; [lia|].
    cbn [hartley_loop]; unfold si_remaining at 1; cbn [si_todo length].
    destruct (Z.gtb_spec (Z.of_nat (S (length tin))) 0); [|lia].
    unfold si_advance, advance.
    cbn [si_arr si_todo ri_arr ri_rev_axis ri_todo tl combine fold_left].
    rewrite IH by (simpl in Hlen; lia); reflexivity.
Qed.

(** [complex2hartley] on a spectrum [tmp] and an output whose buffer has
    been resolved: the counts of the two iterators are compared once, before
    the loop. *)
Lemma complex2hartley_pass {P : Platform} T (in_ tmp : array) dt axes_ out_
  axes last out0 d0 m :
  arr_payload tmp = cplx_data T dt ->
  makeaxes in_ axes_ = Ok axes ->
  back axes = Ok last ->
  prepare_output (Real T) out_ (arr_shape in_) = Ok out0 ->
  real_view T out0 = Ok d0 ->
  at_index (arr_shape out0) last = Ok m ->
  let atmp := mk_arr_info (arr_shape tmp) (arr_strides tmp) in
  let aout := mk_arr_info (arr_shape out0) (arr_strides out0) in
  let rev := rev_axes (length (arr_shape out0)) axes in
  let tin := positions (arr_shape tmp) in
  let tout := positions (set_nth (arr_shape out0) (Z.to_nat last) (m / 2 + 1)) in
  complex2hartley T in_ tmp axes_ out_ =
  if (length tin =? length tout)%nat
  then Ok (with_real out0 T
             (fold_left (hartley_step atmp dt aout rev) (combine tin tout) d0))
  else Throw (runtime_error "oops").
Proof.
  intros Hdt Hax Hback Hprep Hview Hm atmp aout rev tin tout.
  pose proof (at_index_inv _ _ _ Hm) as [Hlast _].
  unfold complex2hartley, copy_shape, copy_strides.
  rewrite Hprep; cbn [bind].
  rewrite (cplx_view_data _ _ _ Hdt); cbn [bind].
  rewrite Hview; cbn [bind]; rewrite Hax; cbn [bind].
  unfold rev_iter_new; cbn [ai_shape].
  rewrite Hback; cbn [bind]; rewrite Hm; cbn [bind].
  rewrite set_index_in_range by assumption; cbn [bind].
  unfold simple_iter_new; cbn [ai_shape].
  unfold si_remaining at 1, remaining at 1; cbn [si_todo ri_todo].
  fold tin tout atmp aout rev.
  destruct (Nat.eqb_spec (length tin) (length tout)) as [E|E].
  - rewrite E, Z.eqb_refl; cbn [negb].
    unfold si_remaining; cbn [si_todo]; rewrite Nat2Z.id.
    fold tin; rewrite hartley_loop_run by (auto; lia); reflexivity.
  - destruct (Z.eqb_spec (Z.of_nat (length tin)) (Z.of_nat (length tout)));
      [lia|reflexivity].
Qed.

Lemma hd_skipn {A : Type} k (l : list A) d : hd d (skipn k l) = nth k l d.
Proof.
  revert l; induction k as [|k IH]; intros [|x l]; simpl; auto.
Qed.

(** C2. For a real input and valid axes, [genuine_hartley] is [r2c] with
    [forward = true] over the same axes followed by [complex2hartley]. That
    pass walks the one-sided spectrum with a forward iterator and the output
    with a mirror iterator side by side; at each step it writes
    [real + imag] of the spectrum element at the mirror iterator's forward
    offset in the output and [real - imag] at its mirror offset. It throws
    when the remaining counts of the two iterators differ: the counts are
    compared before the loop and both go down by one per step, so they
    agree at every step when they agree at the start. For an output of the
    input's shape (a new one in particular) they agree, and the two
    iterators visit the same indices. *)
Theorem genuine_hartley_composition {P : Platform} T (in_ : array) d_in axes_
  inorm out_ nthreads axes last n fct K out0 d0 m :
  arr_payload in_ = real_data T d_in ->
  makeaxes in_ axes_ = Ok axes ->
  back axes = Ok last ->
  at_index (arr_shape in_) last = Ok n ->
  0 <= n < 2 ^ 63 ->
  norm_fct inorm (arr_shape in_) axes = Ok fct ->
  let dims := arr_shape in_ in
  let shp := set_nth dims (Z.to_nat last) (n / 2 + 1) in
  let tmp_strides := c_strides (2 * sizeof_T T) shp in
  pocketfft_r2c T dims (arr_strides in_) tmp_strides axes true d_in
    (uninit_cplx T shp) fct nthreads = Ok K ->
  prepare_output (Real T) out_ dims = Ok out0 ->
  real_view T out0 = Ok d0 ->
  at_index (arr_shape out0) last = Ok m ->
  let tmp := mk_array shp tmp_strides (cplx_data T K) in
  let atmp := mk_arr_info shp tmp_strides in
  let aout := mk_arr_info (arr_shape out0) (arr_strides out0) in
  let rev := rev_axes (length (arr_shape out0)) axes in
  let tin := positions shp in
  let tout :=
    positions (set_nth (arr_shape out0) (Z.to_nat last) (m / 2 + 1)) in
  let iin := simple_iter_new atmp in
  let iout := mk_rev_iter aout rev tout in
  let step := hartley_step atmp K aout rev in
  (genuine_hartley in_ axes_ inorm out_ nthreads =
   (let* tmp := r2c in_ axes_ true inorm PyNone nthreads in
    complex2hartley T in_ tmp axes_ out_) /\
   r2c in_ axes_ true inorm PyNone nthreads = Ok tmp /\
   rev_iter_new aout axes = Ok iout) /\
  (si_remaining iin <> remaining iout ->
   genuine_hartley in_ axes_ inorm out_ nthreads =
   Throw (runtime_error "oops")) /\
  (forall k,
     si_remaining (si_advance_n k iin) <> remaining (advance_n k iout) ->
     genuine_hartley in_ axes_ inorm out_ nthreads =
     Throw (runtime_error "oops")) /\
  (si_remaining iin = remaining iout ->
   genuine_hartley in_ axes_ inorm out_ nthreads =
   Ok (with_real out0 T (fold_left step (combine tin tout) d0)) /\
   (forall k, si_remaining (si_advance_n k iin) =
              remaining (advance_n k iout)) /\
   (forall k, (k < length tin)%nat ->
      let it_in := si_advance_n k iin in
      let it_out := advance_n k iout in
      let v := K (si_ofs it_in) in
      let before := fold_left step (firstn k (combine tin tout)) d0 in
      fold_left step (firstn (S k) (combine tin tout)) d0 =
      store (store before (ofs it_out) (s_add (fst v) (snd v)))
        (rev_ofs it_out) (s_sub (fst v) (snd v)))) /\
  (arr_shape out0 = dims -> tout = tin /\ si_remaining iin = remaining iout) /\
  (out_ = PyNone -> arr_shape out0 = dims).
Proof.
  intros Hdata Hax Hback Hn Hrange Hfct dims shp tmp_strides Hk Hprep Hview
    Hm tmp atmp aout rev tin tout iin iout step.
  pose proof (at_index_inv _ _ _ Hm) as [Hlast _].
  assert (Hr2c : r2c in_ axes_ true inorm PyNone nthreads = Ok tmp)
    by now apply (r2c_allocating T in_ d_in axes_ true inorm nthreads axes
                    last n fct K).
  assert (Hcomp : genuine_hartley in_ axes_ inorm out_ nthreads =
                  complex2hartley T in_ tmp axes_ out_).
  { unfold genuine_hartley; rewrite Hr2c; cbn [bind].
    now rewrite (DISPATCH_real _ T _ (dtype_of_real_data _ _ _ Hdata)). }
  pose proof (complex2hartley_pass T in_ tmp K axes_ out_ axes last out0 d0 m
                eq_refl Hax Hback Hprep Hview Hm) as Hpass.
  cbv zeta in Hpass; cbn [arr_shape arr_strides tmp] in Hpass.
  fold atmp aout rev tin tout step in Hpass.
  rewrite <- Hcomp in Hpass.
  assert (Hcount : si_remaining iin = Z.of_nat (length tin) /\
                   remaining iout = Z.of_nat (length tout)) by (split; reflexivity).
  destruct Hcount as [Hcin Hcout].
  assert (Hbad : si_remaining iin <> remaining iout ->
                 genuine_hartley in_ axes_ inorm out_ nthreads =
                 Throw (runtime_error "oops")).
  { intros Hne; rewrite Hpass.
    destruct (Nat.eqb_spec (length tin) (length tout)); [|reflexivity].
    exfalso; apply Hne; rewrite Hcin, Hcout; congruence. }
  assert (Hlock : si_remaining iin = remaining iout ->
                  forall k, si_remaining (si_advance_n k iin) =
                            remaining (advance_n k iout)).
  { intros E k; now rewrite si_remaining_advance_n, remaining_advance_n, E. }
  split; [|split; [exact Hbad|split; [|split; [|split]]]].
  - split; [|split; [exact Hr2c|]].
    + now rewrite Hr2c.
    + unfold rev_iter_new; cbn [ai_shape aout].
      rewrite Hback; cbn [bind]; rewrite Hm; cbn [bind].
      now rewrite set_index_in_range by assumption.
  - intros k Hne; apply Hbad; intros E; apply Hne; now apply Hlock.
  - intros E; rewrite Hcin, Hcout in E; apply Nat2Z.inj in E.
    split; [|split].
    + rewrite Hpass, E, Nat.eqb_refl; reflexivity.
    + apply Hlock; rewrite Hcin, Hcout; congruence.
    + intros k Hlt it_in it_out v before.
      rewrite (firstn_snoc (combine tin tout) k ([], []))
        by (rewrite length_combine; lia).
      rewrite fold_left_app; cbn [fold_left].
      rewrite combine_nth by assumption.
      unfold step at 1, hartley_step; cbn [fst snd].
      unfold v, it_in, it_out, si_ofs, ofs, rev_ofs, before.
      rewrite si_todo_advance_n, ri_todo_advance_n, !hd_skipn.
      rewrite si_arr_advance_n.
      destruct (ri_arr_advance_n k iout) as [-> ->]; reflexivity.
  - intros Eshape; fold dims in Hn.
    assert (Emn : m = n).
    { rewrite Eshape in Hm; rewrite Hn in Hm; now inversion Hm. }
    assert (Et : tout = tin) by (unfold tout, tin, shp; now rewrite Eshape, Emn).
    split; [exact Et|]; rewrite Hcin, Hcout; now rewrite Et.
  - intros ->; unfold prepare_output in Hprep; cbn [is_None] in Hprep.
    inversion Hprep; reflexivity.
Qed.

Lemma genuine_hartley_composition_witness :
  (exists res d,
     @genuine_hartley toy toy_real4 PyNone 0 PyNone 1 = Ok res /\
     arr_shape res = [4] /\
     arr_payload res = @real_data toy Pdouble d /\
     map d [0; 8; 16; 24] = [10; 23; 30; 17]) /\
  @genuine_hartley toy toy_real4 PyNone 0 (PyArray toy_real3) 1 =
  Throw (runtime_error "oops").
Proof.
  split.
  - destruct (@genuine_hartley_composition toy Pdouble toy_real4 _ PyNone 0
                PyNone 1 [0] 0 4 fct_one _ _ _ 4
                eq_refl eq_refl eq_refl eq_refl
                ltac:(vm_compute; split; [discriminate|reflexivity])
                eq_refl eq_refl eq_refl eq_refl eq_refl)
      as (_ & _ & _ & Hok & Hsame & Hnew).
    destruct (Hsame (Hnew eq_refl)) as [_ Hcount].
    destruct (Hok Hcount) as (Hcall & _).
    do 2 eexists; split; [exact Hcall|].
    split; [reflexivity|split; reflexivity].
  - destruct (@genuine_hartley_composition toy Pdouble toy_real4 _ PyNone 0
                (PyArray toy_real3) 1 [0] 0 4 fct_one _ _ _ 3
                eq_refl eq_refl eq_refl eq_refl
                ltac:(vm_compute; split; [discriminate|reflexivity])
                eq_refl eq_refl eq_refl eq_refl eq_refl)
      as (_ & Hbad & _).
    apply Hbad; vm_compute; discriminate.
Defined.

(** * Further properties of the front end *)

Ltac ok_inv H := repeat (apply bind_ok_inv in H as (? & ? & H)).

(** ** Element-type dispatch: what is rejected *)

Lemma DISPATCH_real_rejects {P : Platform} {A : Type} (a : array)
  (func : prec -> result A) :
  (forall T, arr_dtype a <> Real T) ->
  DISPATCH a f64 f32 flong func = Throw (runtime_error "unsupported data type").
Proof.
  intros H; unfold DISPATCH; destruct (arr_dtype a) as [p|p|k]; simpl;
    [exfalso; now apply (H p)| |]; reflexivity.
Qed.

Lemma DISPATCH_complex_rejects {P : Platform} {A : Type} (a : array)
  (func : prec -> result A) :
  (forall T, arr_dtype a <> Complex T) ->
  DISPATCH a c128 c64 clong func =
  Throw (runtime_error "unsupported data type").
Proof.
  intros H; unfold DISPATCH; destruct (arr_dtype a) as [p|p|k]; simpl;
    [|exfalso; now apply (H p)|]; reflexivity.
Qed.

(** X1. An input whose dtype an operation does not handle makes it throw
    "unsupported data type", whatever the other arguments are and before
    any of them is looked at: [c2c] takes the three real and the three
    complex dtypes and nothing else; [r2c], [r2r_fftpack],
    [separable_hartley] and [genuine_hartley] take only the three real
    dtypes (a complex input is rejected); [c2r] takes only the three complex
    dtypes (a real input is rejected). *)
Theorem unsupported_dtype_rejected {P : Platform} (a : array) :
  let unsupported := Throw (runtime_error "unsupported data type") in
  (forall k, arr_dtype a = Unsupported k ->
     forall axes_ forward inorm out_ nthreads,
       c2c a axes_ forward inorm out_ nthreads = unsupported) /\
  ((forall T, arr_dtype a <> Real T) ->
     forall axes_ real2hermitian forward inorm out_ nthreads,
       r2c a axes_ forward inorm out_ nthreads = unsupported /\
       r2r_fftpack a axes_ real2hermitian forward inorm out_ nthreads =
       unsupported /\
       separable_hartley a axes_ inorm out_ nthreads = unsupported /\
       genuine_hartley a axes_ inorm out_ nthreads = unsupported) /\
  ((forall T, arr_dtype a <> Complex T) ->
     forall axes_ lastsize forward inorm out_ nthreads,
       c2r a axes_ lastsize forward inorm out_ nthreads = unsupported).
Proof.
  intros unsupported; split; [|split].
  - intros k Hk axes_ forward inorm out_ nthreads.
    unfold c2c; rewrite Hk; destruct k; simpl kind_is_c; cbv iota.
    + apply DISPATCH_complex_rejects; intros T; rewrite Hk; discriminate.
    + apply DISPATCH_real_rejects; intros T; rewrite Hk; discriminate.
  - intros H axes_ real2hermitian forward inorm out_ nthreads.
    assert (Hr2c : forall o, r2c a axes_ true inorm o nthreads = unsupported)
      by (intros o; now apply DISPATCH_real_rejects).
    repeat split; try now apply DISPATCH_real_rejects.
    unfold genuine_hartley; now rewrite Hr2c.
  - intros H axes_ lastsize forward inorm out_ nthreads.
    now apply DISPATCH_complex_rejects.
Qed.

Lemma unsupported_dtype_rejected_witness :
  @c2c toy toy_int4 PyNone true 0 PyNone 1 =
  Throw (runtime_error "unsupported data type") /\
  @r2c toy toy_cplx3 PyNone true 0 PyNone 1 =
  Throw (runtime_error "unsupported data type") /\
  @c2r toy toy_real4 PyNone 0 true 0 PyNone 1 =
  Throw (runtime_error "unsupported data type").
Proof.
  split; [|split].
  - destruct (@unsupported_dtype_rejected toy toy_int4) as (H & _).
    now apply (H false).
  - destruct (@unsupported_dtype_rejected toy toy_cplx3) as (_ & H & _).
    apply (H ltac:(intros T; discriminate) PyNone true true 0 PyNone 1).
  - destruct (@unsupported_dtype_rejected toy toy_real4) as (_ & _ & H).
    apply H; intros T; discriminate.
Defined.

(** ** Transforming in place *)

Lemma prepare_output_other_dtype {P : Platform} et (a : array) dims res :
  prepare_output et (PyArray a) dims = Ok res ->
  dtype_is (arr_dtype a) et = true.
Proof. intros H; now apply prepare_output_ok_inv in H. Qed.

(** X2. Passing the input array itself as [out] is accepted exactly by the
    transforms whose output has the input's element type: [c2c] on a complex
    input, [r2r_fftpack] and [separable_hartley]. They hand the kernel the
    same strides and the same memory for input and output and return the
    input array with the kernel's result in it. Where the output's element
    type differs ([c2c] on a real input, [r2c], [c2r]) the call never
    succeeds with the input as [out]. *)
Theorem in_place_transform {P : Platform} (a : array) :
  (forall T d, arr_payload a = cplx_data T d ->
     forall axes_ forward inorm nthreads,
       c2c a axes_ forward inorm (PyArray a) nthreads =
       (let* axes := makeaxes a axes_ in
        let* fct := norm_fct inorm (arr_shape a) axes in
        let* d' :=
          pocketfft_c2c T (arr_shape a) (arr_strides a) (arr_strides a) axes
            forward d d fct nthreads in
        Ok (with_cplx a T d')) /\
       forall lastsize,
         is_ok (c2r a axes_ lastsize forward inorm (PyArray a) nthreads) =
         false) /\
  (forall T d, arr_payload a = real_data T d ->
     forall axes_ real2hermitian forward inorm nthreads,
       r2r_fftpack a axes_ real2hermitian forward inorm (PyArray a) nthreads =
       (let* axes := makeaxes a axes_ in
        let* fct := norm_fct inorm (arr_shape a) axes in
        let* d' :=
          pocketfft_r2r_fftpack T (arr_shape a) (arr_strides a)
            (arr_strides a) axes real2hermitian forward d d fct nthreads in
        Ok (with_real a T d')) /\
       separable_hartley a axes_ inorm (PyArray a) nthreads =
       (let* axes := makeaxes a axes_ in
        let* fct := norm_fct inorm (arr_shape a) axes in
        let* d' :=
          pocketfft_r2r_separable_hartley T (arr_shape a) (arr_strides a)
            (arr_strides a) axes d d fct nthreads in
        Ok (with_real a T d')) /\
       is_ok (c2c a axes_ forward inorm (PyArray a) nthreads) = false /\
       is_ok (r2c a axes_ forward inorm (PyArray a) nthreads) = false).
Proof.
  split.
  - intros T d Hd axes_ forward inorm nthreads.
    pose proof (dtype_of_cplx_data _ _ _ Hd) as Hdt.
    split.
    + unfold c2c; rewrite Hdt; simpl kind_is_c; cbv iota.
      rewrite (DISPATCH_complex _ T _ Hdt).
      unfold c2c_internal, copy_shape, copy_strides.
      destruct (makeaxes a axes_) as [axes|e]; cbn [bind]; [|reflexivity].
      rewrite prepare_output_array, Hdt; simpl dtype_is.
      rewrite prec_eqb_refl; cbn [bind].
      now rewrite (cplx_view_data _ _ _ Hd).
    + intros lastsize.
      destruct (c2r a axes_ lastsize forward inorm (PyArray a) nthreads)
        as [res|e] eqn:E; [|reflexivity].
      exfalso; apply DISPATCH_complex_inv in E as (T' & _ & E).
      unfold c2r_internal in E; ok_inv E.
      match goal with
      | Hp : prepare_output _ (PyArray a) _ = Ok _ |- _ =>
          apply prepare_output_other_dtype in Hp; rewrite Hdt in Hp;
          discriminate Hp
      end.
  - intros T d Hd axes_ real2hermitian forward inorm nthreads.
    pose proof (dtype_of_real_data _ _ _ Hd) as Hdt.
    split; [|split; [|split]].
    + unfold r2r_fftpack; rewrite (DISPATCH_real _ T _ Hdt).
      unfold r2r_fftpack_internal, copy_shape, copy_strides.
      destruct (makeaxes a axes_) as [axes|e]; cbn [bind]; [|reflexivity].
      rewrite prepare_output_array, Hdt; simpl dtype_is.
      rewrite prec_eqb_refl; cbn [bind].
      now rewrite (real_view_data _ _ _ Hd).
    + unfold separable_hartley; rewrite (DISPATCH_real _ T _ Hdt).
      unfold separable_hartley_internal, copy_shape, copy_strides.
      rewrite prepare_output_array, Hdt; simpl dtype_is.
      rewrite prec_eqb_refl; cbn [bind].
      destruct (makeaxes a axes_) as [axes|e]; cbn [bind]; [|reflexivity].
      now rewrite (real_view_data _ _ _ Hd).
    + destruct (c2c a axes_ forward inorm (PyArray a) nthreads)
        as [res|e] eqn:E; [|reflexivity].
      exfalso; unfold c2c in E; rewrite Hdt in E; simpl kind_is_c in E.
      cbv iota in E; apply DISPATCH_real_inv in E as (T' & _ & E).
      unfold c2c_sym_internal in E; ok_inv E.
      match goal with
      | Hp : prepare_output _ (PyArray a) _ = Ok _ |- _ =>
          apply prepare_output_other_dtype in Hp; rewrite Hdt in Hp;
          discriminate Hp
      end.
    + destruct (r2c a axes_ forward inorm (PyArray a) nthreads)
        as [res|e] eqn:E; [|reflexivity].
      exfalso; apply DISPATCH_real_inv in E as (T' & _ & E).
      unfold r2c_internal in E; ok_inv E.
      match goal with
      | Hp : prepare_output _ (PyArray a) _ = Ok _ |- _ =>
          apply prepare_output_other_dtype in Hp; rewrite Hdt in Hp;
          discriminate Hp
      end.
Qed.

Lemma in_place_transform_witness :
  @c2c toy toy_cplx3 PyNone false 2 (PyArray toy_cplx3) 1 = Ok toy_cplx3 /\
  is_ok (@r2c toy toy_real4 PyNone true 0 (PyArray toy_real4) 1) = false.
Proof.
  split.
  - destruct (@in_place_transform toy toy_cplx3) as (H & _).
    destruct (H Pdouble _ eq_refl PyNone false 2 1) as (Hc2c & _).
    rewrite Hc2c; reflexivity.
  - destruct (@in_place_transform toy toy_real4) as (_ & H).
    destruct (H Pdouble _ eq_refl PyNone true true 0 1) as (_ & _ & _ & Hr2c).
    exact Hr2c.
Defined.

(** ** What [makeaxes] returns *)

Lemma normalized_in_range rank a : 0 <= a < rank -> normalized rank a = a.
Proof.
  intros H; unfold normalized; destruct (Z.ltb_spec a 0); [lia|reflexivity].
Qed.

Lemma normalize_axes_length rank l axes :
  normalize_axes rank l = Ok axes -> length axes = length l.
Proof.
  revert axes; induction l as [|sz l IH]; intros axes H; simpl in H.
  - now inversion H.
  - match type of H with
    | (if ?c then _ else _) = _ => destruct c; [discriminate|]
    end.
    apply bind_ok_inv in H as (rest & Hrest & H); inversion H; subst.
    simpl; f_equal; now apply IH.
Qed.

(** X3. The axes [makeaxes] returns always index the array: each is in
    [0, rank), there are at most [rank] of them, and at least one when a
    list was given. The result is a fixed point: given back as the axes
    argument, a non-empty result is returned unchanged. The only way to an
    empty result is a rank-0 array with no axes argument; on a rank-0 array
    every list is rejected. *)
Theorem makeaxes_result_invariants {P : Platform} (in_ : array) axes_ axes :
  makeaxes in_ axes_ = Ok axes ->
  ndim in_ <= ptrdiff_max ->
  Forall (fun a => 0 <= a < ndim in_) axes /\
  Z.of_nat (length axes) <= ndim in_ /\
  (axes_ = PyNone -> Z.of_nat (length axes) = ndim in_) /\
  (axes_ <> PyNone -> 1 <= Z.of_nat (length axes)) /\
  (axes <> [] -> makeaxes in_ (PyList axes) = Ok axes) /\
  (axes = [] -> ndim in_ = 0 /\ axes_ = PyNone) /\
  (ndim in_ = 0 -> forall l, is_ok (makeaxes in_ (PyList l)) = false).
Proof.
  intros H Hrank.
  pose proof (makeaxes_in_range in_ axes_ axes H) as Hrange.
  fold (ndim in_) in Hrange.
  assert (Hlen : Z.of_nat (length axes) <= ndim in_ /\
                 (axes_ = PyNone -> Z.of_nat (length axes) = ndim in_) /\
                 (axes_ <> PyNone -> 1 <= Z.of_nat (length axes))).
  { unfold makeaxes in H; destruct axes_; simpl is_None in H; cbv iota in H;
      try (inversion H; subst; rewrite length_iota; unfold ndim;
           repeat split; try lia; congruence);
      try discriminate.
    apply bind_ok_inv in H as (tmp & _ & H).
    destruct (Z.gtb_spec (Z.of_nat (length tmp)) (ndim in_)); [discriminate|].
    destruct (Z.eqb_spec (Z.of_nat (length tmp)) 0); [discriminate|].
    simpl in H; apply normalize_axes_length in H; rewrite H.
    repeat split; try lia; congruence. }
  destruct Hlen as (Hle & Hnone & Hsome).
  split; [exact Hrange|split; [exact Hle|split; [exact Hnone|]]].
  split; [exact Hsome|split; [|split]].
  - intros Hne; unfold makeaxes; simpl is_None; cbv iota.
    unfold cast_vector_ptrdiff.
    replace (forallb _ axes) with true.
    2:{ symmetry; apply forallb_forall; intros z Hz.
        rewrite Forall_forall in Hrange; specialize (Hrange z Hz).
        unfold ptrdiff_max in *.
        destruct (Z.leb_spec (- (2 ^ 63 - 1) - 1) z);
          destruct (Z.leb_spec z (2 ^ 63 - 1)); simpl; lia. }
    cbn [bind].
    destruct (Z.gtb_spec (Z.of_nat (length axes)) (ndim in_)); [lia|].
    destruct (Z.eqb_spec (Z.of_nat (length axes)) 0) as [E|_];
      [destruct axes; [congruence|discriminate]|].
    simpl; rewrite normalize_axes_ok.
    + f_equal; rewrite <- (map_id axes) at 2; apply map_ext_in.
      intros z Hz; apply normalized_in_range.
      rewrite Forall_forall in Hrange; now apply Hrange.
    + apply Forall_forall; intros z Hz.
      rewrite Forall_forall in Hrange; specialize (Hrange z Hz).
      now rewrite normalized_in_range.
  - intros ->; simpl in Hnone, Hsome.
    destruct axes_; try (specialize (Hsome ltac:(discriminate)); lia).
    split; [specialize (Hnone eq_refl); lia | reflexivity].
  - intros H0 l; unfold makeaxes; simpl is_None; cbv iota.
    destruct (cast_vector_ptrdiff (PyList l)) as [tmp|e] eqn:E; [|reflexivity].
    cbn [bind]; rewrite H0.
    destruct (Z.gtb_spec (Z.of_nat (length tmp)) 0); [reflexivity|].
    destruct (Z.eqb_spec (Z.of_nat (length tmp)) 0); [reflexivity|lia].
Qed.

Lemma makeaxes_result_invariants_witness :
  @makeaxes toy toy_real234 (PyList [2; 0; 2]) = Ok [2; 0; 2] /\
  is_ok (@makeaxes toy toy_real0d (PyList [0])) = false.
Proof.
  split.
  - destruct (@makeaxes_result_invariants toy toy_real234 (PyList [-1; 0; 2])
                [2; 0; 2] eq_refl) as (_ & _ & _ & _ & Hfix & _).
    + vm_compute; discriminate.
    + apply Hfix; discriminate.
  - destruct (@makeaxes_result_invariants toy toy_real0d PyNone [] eq_refl)
      as (_ & _ & _ & _ & _ & _ & Hrank0).
    + vm_compute; discriminate.
    + now apply Hrank0.
Defined.

(** ** Which error a call reports *)

Lemma back_nonempty axes :
  axes <> [] -> exists last, back axes = Ok last /\ In last axes.
Proof.
  intros H; destruct axes as [|a axes]; [congruence|].
  exists (last (a :: axes) 0); split; [reflexivity|].
  now apply back_in.
Qed.

Lemma at_index_in_range v i :
  0 <= i < Z.of_nat (length v) -> at_index v i = Ok (nth (Z.to_nat i) v 0).
Proof.
  intros Hi; unfold at_index.
  destruct (Z.leb_spec 0 i); destruct (Z.ltb_spec i (Z.of_nat (length v)));
    simpl; auto; lia.
Qed.

Lemma norm_fct_invalid_mode inorm shape axes :
  Forall (fun a => 0 <= a < Z.of_nat (length shape)) axes ->
  inorm <> 0 -> inorm <> 1 -> inorm <> 2 ->
  norm_fct inorm shape axes =
  Throw (invalid_argument "invalid value for inorm (must be 0, 1, or 2)").
Proof.
  intros Hax H0 H1 H2; rewrite norm_fct_general by assumption.
  destruct (Z.eqb_spec inorm 0); [lia|]; unfold norm_fct_N.
  destruct (Z.eqb_spec inorm 0); [lia|].
  destruct (Z.eqb_spec inorm 2); [lia|].
  destruct (Z.eqb_spec inorm 1); [lia|reflexivity].
Qed.

Lemma cplx_view_new {P : Platform} T dims :
  cplx_view T (array_t_new (Complex T) dims) = Ok (uninit_cplx T dims).
Proof. unfold cplx_view; simpl; now rewrite prec_eqb_refl. Qed.

Lemma real_view_new {P : Platform} T dims :
  real_view T (array_t_new (Real T) dims) = Ok (uninit_real T dims).
Proof. unfold real_view; simpl; now rewrite prec_eqb_refl. Qed.

(** X4. A normalisation mode other than 0, 1 or 2 makes each of the six
    operations throw [invalid_argument], once the dtype and the axes (and,
    in [c2r], the [lastsize]) have been accepted; the throw comes after the
    output buffer has been obtained and does not depend on the kernel, which
    is not reached. *)
Theorem invalid_inorm_rejected {P : Platform} (a : array) axes_ axes inorm :
  inorm <> 0 -> inorm <> 1 -> inorm <> 2 ->
  makeaxes a axes_ = Ok axes ->
  let invalid :=
    Throw (invalid_argument "invalid value for inorm (must be 0, 1, or 2)") in
  (forall T d, arr_payload a = real_data T d ->
     forall real2hermitian forward nthreads,
       c2c a axes_ forward inorm PyNone nthreads = invalid /\
       r2r_fftpack a axes_ real2hermitian forward inorm PyNone nthreads =
       invalid /\
       separable_hartley a axes_ inorm PyNone nthreads = invalid /\
       (axes <> [] ->
        r2c a axes_ forward inorm PyNone nthreads = invalid /\
        genuine_hartley a axes_ inorm PyNone nthreads = invalid)) /\
  (forall T d, arr_payload a = cplx_data T d ->
     forall forward nthreads,
       c2c a axes_ forward inorm PyNone nthreads = invalid /\
       forall lastsize last n ls,
         back axes = Ok last ->
         at_index (arr_shape a) last = Ok n ->
         resolve_lastsize lastsize n = Ok ls ->
         c2r a axes_ lastsize forward inorm PyNone nthreads = invalid).
Proof.
  intros H0 H1 H2 Hax invalid.
  pose proof (makeaxes_in_range a axes_ axes Hax) as Hrange.
  pose proof (norm_fct_invalid_mode inorm (arr_shape a) axes Hrange H0 H1 H2)
    as Hnorm.
  split.
  - intros T d Hd real2hermitian forward nthreads.
    pose proof (dtype_of_real_data _ _ _ Hd) as Hdt.
    assert (Hr2c : axes <> [] ->
                   r2c a axes_ true inorm PyNone nthreads = invalid /\
                   r2c a axes_ forward inorm PyNone nthreads = invalid).
    { intros Hne; destruct (back_nonempty axes Hne) as (last & Hback & Hin).
      rewrite Forall_forall in Hrange; specialize (Hrange last Hin).
      assert (E : forall fw, r2c a axes_ fw inorm PyNone nthreads = invalid).
      { intros fw; unfold r2c; rewrite (DISPATCH_real _ T _ Hdt).
        unfold r2c_internal, copy_shape, copy_strides.
        rewrite Hax; cbn [bind]; rewrite Hback; cbn [bind].
        rewrite at_index_in_range by assumption; cbn [bind].
        rewrite set_index_in_range by assumption; cbn [bind].
        unfold prepare_output; cbn [is_None bind].
        rewrite (real_view_data _ _ _ Hd); cbn [bind].
        rewrite cplx_view_new; cbn [bind].
        now rewrite Hnorm. }
      split; apply E. }
    split; [|split; [|split]].
    + unfold c2c; rewrite Hdt; simpl kind_is_c; cbv iota.
      rewrite (DISPATCH_real _ T _ Hdt).
      unfold c2c_sym_internal, copy_shape, copy_strides.
      rewrite Hax; cbn [bind]; unfold prepare_output; cbn [is_None bind].
      rewrite (real_view_data _ _ _ Hd); cbn [bind].
      rewrite cplx_view_new; cbn [bind]; now rewrite Hnorm.
    + unfold r2r_fftpack; rewrite (DISPATCH_real _ T _ Hdt).
      unfold r2r_fftpack_internal, copy_shape, copy_strides.
      rewrite Hax; cbn [bind]; unfold prepare_output; cbn [is_None bind].
      rewrite (real_view_data _ _ _ Hd); cbn [bind].
      rewrite real_view_new; cbn [bind]; now rewrite Hnorm.
    + unfold separable_hartley; rewrite (DISPATCH_real _ T _ Hdt).
      unfold separable_hartley_internal, copy_shape, copy_strides.
      unfold prepare_output; cbn [is_None bind]; rewrite Hax; cbn [bind].
      rewrite (real_view_data _ _ _ Hd); cbn [bind].
      rewrite real_view_new; cbn [bind]; now rewrite Hnorm.
    + intros Hne; destruct (Hr2c Hne) as [Ht Hf]; split; [exact Hf|].
      unfold genuine_hartley; now rewrite Ht.
  - intros T d Hd forward nthreads.
    pose proof (dtype_of_cplx_data _ _ _ Hd) as Hdt.
    split.
    + unfold c2c; rewrite Hdt; simpl kind_is_c; cbv iota.
      rewrite (DISPATCH_complex _ T _ Hdt).
      unfold c2c_internal, copy_shape, copy_strides.
      rewrite Hax; cbn [bind]; unfold prepare_output; cbn [is_None bind].
      rewrite (cplx_view_data _ _ _ Hd); cbn [bind].
      rewrite cplx_view_new; cbn [bind]; now rewrite Hnorm.
    + intros lastsize last n ls Hback Hn Hls.
      rewrite (c2r_steps T a axes_ lastsize forward inorm PyNone nthreads
                 axes last n Hdt Hax Hback Hn), Hls.
      cbn [bind]; cbv zeta; unfold prepare_output; cbn [is_None bind].
      rewrite (cplx_view_data _ _ _ Hd); cbn [bind].
      rewrite real_view_new; cbn [bind].
      rewrite norm_fct_invalid_mode; auto.
      now rewrite length_set_nth.
Qed.

Lemma invalid_inorm_rejected_witness :
  @genuine_hartley toy toy_real234 (PyList [0; -1]) 3 PyNone 1 =
  Throw (invalid_argument "invalid value for inorm (must be 0, 1, or 2)") /\
  @c2r toy toy_cplx5 PyNone 8 true (-1) PyNone 1 =
  Throw (invalid_argument "invalid value for inorm (must be 0, 1, or 2)").
Proof.
  split.
  - destruct (@invalid_inorm_rejected toy toy_real234 (PyList [0; -1]) [0; 2]
                3 ltac:(discriminate) ltac:(discriminate) ltac:(discriminate)
                eq_refl) as (H & _).
    destruct (H Pdouble _ eq_refl true true 1) as (_ & _ & _ & Hr).
    apply Hr; discriminate.
  - destruct (@invalid_inorm_rejected toy toy_cplx5 PyNone [0] (-1)
                ltac:(discriminate) ltac:(discriminate) ltac:(discriminate)
                eq_refl) as (_ & H).
    destruct (H Pdouble _ eq_refl true 1) as (_ & Hc).
    apply (Hc 8 0 5 8); reflexivity.
Defined.

(** X5. Which of two errors is reported. In [c2c], [r2c], [c2r],
    [r2r_fftpack] and [genuine_hartley] the axes are resolved first: when
    [makeaxes] throws, the call throws that exception whatever [out] and
    [inorm] are. [separable_hartley] obtains its output first: an
    unacceptable [out] is reported whatever the axes are, and a bad axes
    argument only once [out] has been accepted. *)
Theorem error_precedence {P : Platform} (a : array) T d axes_ e :
  arr_payload a = real_data T d ->
  makeaxes a axes_ = Throw e ->
  (forall real2hermitian forward inorm out_ nthreads,
     c2c a axes_ forward inorm out_ nthreads = Throw e /\
     r2c a axes_ forward inorm out_ nthreads = Throw e /\
     r2r_fftpack a axes_ real2hermitian forward inorm out_ nthreads =
     Throw e /\
     genuine_hartley a axes_ inorm out_ nthreads = Throw e) /\
  (forall inorm out_ nthreads,
     (forall e', prepare_output (Real T) out_ (arr_shape a) = Throw e' ->
        separable_hartley a axes_ inorm out_ nthreads = Throw e') /\
     (forall res, prepare_output (Real T) out_ (arr_shape a) = Ok res ->
        separable_hartley a axes_ inorm out_ nthreads = Throw e)) /\
  (forall (c : array) Tc dc lastsize forward inorm out_ nthreads,
     arr_payload c = cplx_data Tc dc ->
     makeaxes c axes_ = Throw e ->
     c2c c axes_ forward inorm out_ nthreads = Throw e /\
     c2r c axes_ lastsize forward inorm out_ nthreads = Throw e).
Proof.
  intros Hd Hax; pose proof (dtype_of_real_data _ _ _ Hd) as Hdt.
  split; [|split].
  - intros real2hermitian forward inorm out_ nthreads.
    assert (Hr2c : forall fw o, r2c a axes_ fw inorm o nthreads = Throw e).
    { intros fw o; unfold r2c; rewrite (DISPATCH_real _ T _ Hdt).
      unfold r2c_internal; now rewrite Hax. }
    split; [|split; [apply Hr2c|split]].
    + unfold c2c; rewrite Hdt; simpl kind_is_c; cbv iota.
      rewrite (DISPATCH_real _ T _ Hdt).
      unfold c2c_sym_internal; now rewrite Hax.
    + unfold r2r_fftpack; rewrite (DISPATCH_real _ T _ Hdt).
      unfold r2r_fftpack_internal; now rewrite Hax.
    + unfold genuine_hartley; now rewrite Hr2c.
  - intros inorm out_ nthreads; split.
    + intros e' He'; unfold separable_hartley.
      rewrite (DISPATCH_real _ T _ Hdt).
      unfold separable_hartley_internal, copy_shape; now rewrite He'.
    + intros res Hres; unfold separable_hartley.
      rewrite (DISPATCH_real _ T _ Hdt).
      unfold separable_hartley_internal, copy_shape.
      rewrite Hres; cbn [bind]; now rewrite Hax.
  - intros c Tc dc lastsize forward inorm out_ nthreads Hc Haxc.
    pose proof (dtype_of_cplx_data _ _ _ Hc) as Hdc; split.
    + unfold c2c; rewrite Hdc; simpl kind_is_c; cbv iota.
      rewrite (DISPATCH_complex _ Tc _ Hdc).
      unfold c2c_internal; now rewrite Haxc.
    + unfold c2r; rewrite (DISPATCH_complex _ Tc _ Hdc).
      unfold c2r_internal; now rewrite Haxc.
Qed.

Lemma error_precedence_witness :
  @r2r_fftpack toy toy_real4 (PyList [1]) true true 0 (PyArray toy_cplx3) 1 =
  Throw (invalid_argument "axes exceeds dimensionality of output") /\
  @separable_hartley toy toy_real4 (PyList [1]) 0 (PyArray toy_cplx3) 1 =
  Throw (runtime_error "unexpected data type for output array").
Proof.
  destruct (@error_precedence toy toy_real4 Pdouble _ (PyList [1]) _
              eq_refl eq_refl) as (Hfirst & Hsep & _).
  split.
  - apply (Hfirst true true 0 (PyArray toy_cplx3) 1).
  - apply (Hsep 0 (PyArray toy_cplx3) 1); reflexivity.
Defined.

(** ** The normalisation factor as a function of the axes *)

Lemma prod_axes_permutation shape axes axes' :
  Permutation axes axes' -> prod_axes shape axes = prod_axes shape axes'.
Proof.
  induction 1 as [|a l l' _ IH|a b l|l l' l'' _ IH1 _ IH2]; simpl;
    [reflexivity | now rewrite IH | ring | congruence].
Qed.

(** X6. The factor does not depend on the order in which the axes are
    listed: two lists of axes in range that are permutations of each other
    give the same factor, in every mode. An axis listed twice counts twice:
    with [inorm = 2] and the axes [a, a] the factor is that of the square of
    the length of axis [a], modulo [2^64]. *)
Theorem norm_fct_axes_order shape axes axes' inorm :
  Forall (fun a => 0 <= a < Z.of_nat (length shape)) axes ->
  Permutation axes axes' ->
  norm_fct inorm shape axes = norm_fct inorm shape axes' /\
  (forall a, 0 <= a < Z.of_nat (length shape) ->
     norm_fct 2 shape [a; a] =
     Ok (fct_inv (wrap (nth (Z.to_nat a) shape 0 * nth (Z.to_nat a) shape 0)))).
Proof.
  intros Hax Hperm.
  assert (Hax' : Forall (fun a => 0 <= a < Z.of_nat (length shape)) axes').
  { rewrite Forall_forall in *; intros a Ha; apply Hax.
    now apply (Permutation_in a (Permutation_sym Hperm)). }
  pose proof (prod_axes_permutation shape axes axes' Hperm) as Eprod.
  split.
  - rewrite !norm_fct_general by assumption; now rewrite Eprod.
  - intros a Ha; rewrite norm_fct_general by (repeat constructor; lia).
    simpl; now rewrite Z.mul_1_r.
Qed.

Lemma norm_fct_axes_order_witness :
  norm_fct 1 [2; 3; 4] [2; 0] = norm_fct 1 [2; 3; 4] [0; 2] /\
  norm_fct 1 [2; 3; 4] [2; 0] = Ok (fct_inv_sqrt 8) /\
  norm_fct 2 [2; 3; 4] [1; 1] = Ok (fct_inv 9).
Proof.
  destruct (norm_fct_axes_order [2; 3; 4] [2; 0] [0; 2] 1)
    as (Hord & Htwice).
  - repeat constructor; vm_compute; discriminate.
  - apply perm_swap.
  - split; [exact Hord|split; [reflexivity|]].
    rewrite (Htwice 1); [reflexivity | simpl; lia].
Defined.

(** ** From [r2c] back through [c2r] *)

Lemma set_nth_twice v k x y : set_nth (set_nth v k x) k y = set_nth v k y.
Proof.
  revert k; induction v as [|h t IH]; intros [|k]; simpl; auto.
  now rewrite IH.
Qed.

Lemma set_nth_same_value v k d :
  (k < length v)%nat -> set_nth v k (nth k v d) = v.
Proof.
  revert k; induction v as [|h t IH]; intros [|k] Hk; simpl in *; auto;
    try lia.
  f_equal; apply IH; lia.
Qed.

Lemma makeaxes_same_rank {P : Platform} (a b : array) axes_ :
  length (arr_shape a) = length (arr_shape b) ->
  makeaxes a axes_ = makeaxes b axes_.
Proof. intros H; unfold makeaxes, ndim; now rewrite H. Qed.

(** X7. [c2r] applied to a spectrum of the shape [r2c] returns. Let the
    real array have length [n >= 1] on the last listed axis, so that the
    spectrum has [n/2 + 1] there. Then [lastsize = n] passes the check and
    [c2r] works on the real array's own shape: the kernel and the
    normalisation factor get that shape, and a new output has it. With
    [lastsize] left at [0] the output length on that axis is [n] when [n]
    is odd and [n + 1] when [n] is even, so the default gives back the
    original shape only for odd lengths. *)
Theorem c2r_after_r2c_shape {P : Platform} T (in_ tmp : array) d_in d_tmp
  axes_ forward inorm nthreads axes last n :
  arr_payload in_ = real_data T d_in ->
  makeaxes in_ axes_ = Ok axes ->
  back axes = Ok last ->
  at_index (arr_shape in_) last = Ok n ->
  1 <= n < 2 ^ 63 ->
  arr_payload tmp = cplx_data T d_tmp ->
  arr_shape tmp = set_nth (arr_shape in_) (Z.to_nat last) (n / 2 + 1) ->
  resolve_lastsize n (n / 2 + 1) = Ok n /\
  resolve_lastsize 0 (n / 2 + 1) = Ok (if Z.odd n then n else n + 1) /\
  c2r tmp axes_ n forward inorm PyNone nthreads =
  (let* fct := norm_fct inorm (arr_shape in_) axes in
   let* d_out :=
     pocketfft_c2r T (arr_shape in_) (arr_strides tmp)
       (c_strides (sizeof_T T) (arr_shape in_)) axes forward d_tmp
       (uninit_real T (arr_shape in_)) fct nthreads in
   Ok (mk_array (arr_shape in_) (c_strides (sizeof_T T) (arr_shape in_))
         (real_data T d_out))) /\
  (forall res, c2r tmp axes_ 0 forward inorm PyNone nthreads = Ok res ->
     arr_shape res =
     set_nth (arr_shape in_) (Z.to_nat last) (if Z.odd n then n else n + 1) /\
     (arr_shape res = arr_shape in_ <-> Z.odd n = true)).
Proof.
  intros Hd Hax Hback Hn Hrange Hdt Hshape.
  pose proof (at_index_inv _ _ _ Hn) as [Hlast Hnth].
  assert (Hlen : length (arr_shape tmp) = length (arr_shape in_))
    by (rewrite Hshape; apply length_set_nth).
  assert (Haxt : makeaxes tmp axes_ = Ok axes)
    by (rewrite (makeaxes_same_rank tmp in_ axes_ Hlen); exact Hax).
  assert (Hnt : at_index (arr_shape tmp) last = Ok (n / 2 + 1)).
  { rewrite at_index_in_range by (rewrite Hlen; assumption).
    rewrite Hshape, nth_set_nth_same by lia; reflexivity. }
  assert (Hexp : resolve_lastsize n (n / 2 + 1) = Ok n).
  { rewrite resolve_lastsize_explicit by (unfold size_t_modulus; lia).
    now rewrite Z.eqb_refl. }
  assert (Hpar : (if Z.odd n then n else n + 1) = 2 * (n / 2 + 1) - 1).
  { rewrite (Zodd_mod n).
    destruct (Z.eqb_spec (n mod 2) 1) as [E|E]; revert E;
      Z.to_euclidean_division_equations; lia. }
  assert (Hinf : resolve_lastsize 0 (n / 2 + 1) =
                 Ok (if Z.odd n then n else n + 1)).
  { rewrite Hpar; apply resolve_lastsize_inferred.
    Z.to_euclidean_division_equations; lia. }
  assert (Hback_shape : forall x,
    set_nth (arr_shape tmp) (Z.to_nat last) x =
    set_nth (arr_shape in_) (Z.to_nat last) x)
    by (intros x; rewrite Hshape; apply set_nth_twice).
  split; [exact Hexp|split; [exact Hinf|split]].
  - rewrite (c2r_steps T tmp axes_ n forward inorm PyNone nthreads axes last
               (n / 2 + 1) (dtype_of_cplx_data _ _ _ Hdt) Haxt Hback Hnt).
    rewrite Hexp; cbn [bind]; cbv zeta.
    rewrite Hback_shape, Hnth, set_nth_same_value by lia.
    unfold prepare_output; cbn [is_None bind].
    rewrite (cplx_view_data _ _ _ Hdt); cbn [bind].
    rewrite real_view_new; cbn [bind]; reflexivity.
  - intros res Hres.
    rewrite (c2r_steps T tmp axes_ 0 forward inorm PyNone nthreads axes last
               (n / 2 + 1) (dtype_of_cplx_data _ _ _ Hdt) Haxt Hback Hnt)
      in Hres.
    rewrite Hinf in Hres; cbn [bind] in Hres; cbv zeta in Hres.
    unfold prepare_output in Hres; cbn [is_None bind] in Hres.
    ok_inv Hres; inversion Hres as [Eres]; clear Hres.
    cbn [with_real array_t_new arr_shape]; rewrite Hback_shape.
    split; [reflexivity|].
    destruct (Z.odd n) eqn:Eodd.
    + split; [reflexivity|intros _].
      rewrite Hnth; apply set_nth_same_value; lia.
    + split; [|discriminate].
      intros E.
      assert (E' : nth (Z.to_nat last)
                     (set_nth (arr_shape in_) (Z.to_nat last) (n + 1)) 0 = n)
        by (rewrite E; auto).
      rewrite nth_set_nth_same in E' by lia; lia.
Qed.

Lemma c2r_after_r2c_shape_witness :
  (forall res, @c2r toy toy_cplx3 PyNone 0 false 2 PyNone 1 = Ok res ->
     arr_shape res = [5]) /\
  exists res,
    @c2r toy toy_cplx3 PyNone 4 false 2 PyNone 1 = Ok res /\
    arr_shape res = [4].
Proof.
  destruct (@c2r_after_r2c_shape toy Pdouble toy_real4 toy_cplx3 _ _ PyNone
              false 2 1 [0] 0 4 eq_refl eq_refl eq_refl eq_refl
              ltac:(vm_compute; split; [discriminate|reflexivity])
              eq_refl eq_refl) as (_ & _ & Hcall & Hdefault).
  split.
  - intros res Hres; now apply Hdefault in Hres as [-> _].
  - rewrite Hcall; eexists; split; reflexivity.
Defined.

(** ** The layout of a new output *)

Ltac new_output H :=
  unfold prepare_output in H; cbn [is_None bind] in H; ok_inv H;
  try match type of H with
  | (if ?c then _ else _) = _ => destruct c; [discriminate|]; ok_inv H
  end;
  inversion H; repeat split; reflexivity.

(** X8. When no [out] is given and the call returns, the result is a
    C-contiguous array of the input's precision: complex for [c2c] (real or
    complex input) and [r2c], real for [c2r], [r2r_fftpack],
    [separable_hartley] and [genuine_hartley]; for [c2c], [r2r_fftpack],
    [separable_hartley] and [genuine_hartley] it has the shape of the
    input. *)
Theorem allocated_result_layout {P : Platform} (in_ res : array) :
  (forall axes_ forward inorm nthreads,
     c2c in_ axes_ forward inorm PyNone nthreads = Ok res ->
     exists T, (arr_dtype in_ = Real T \/ arr_dtype in_ = Complex T) /\
       arr_dtype res = Complex T /\ arr_shape res = arr_shape in_ /\
       arr_strides res = c_strides (2 * sizeof_T T) (arr_shape res)) /\
  (forall axes_ forward inorm nthreads,
     r2c in_ axes_ forward inorm PyNone nthreads = Ok res ->
     exists T, arr_dtype in_ = Real T /\ arr_dtype res = Complex T /\
       arr_strides res = c_strides (2 * sizeof_T T) (arr_shape res)) /\
  (forall axes_ lastsize forward inorm nthreads,
     c2r in_ axes_ lastsize forward inorm PyNone nthreads = Ok res ->
     exists T, arr_dtype in_ = Complex T /\ arr_dtype res = Real T /\
       arr_strides res = c_strides (sizeof_T T) (arr_shape res)) /\
  (forall axes_ real2hermitian forward inorm nthreads,
     r2r_fftpack in_ axes_ real2hermitian forward inorm PyNone nthreads =
     Ok res ->
     exists T, arr_dtype in_ = Real T /\ arr_dtype res = Real T /\
       arr_shape res = arr_shape in_ /\
       arr_strides res = c_strides (sizeof_T T) (arr_shape res)) /\
  (forall axes_ inorm nthreads,
     separable_hartley in_ axes_ inorm PyNone nthreads = Ok res ->
     exists T, arr_dtype in_ = Real T /\ arr_dtype res = Real T /\
       arr_shape res = arr_shape in_ /\
       arr_strides res = c_strides (sizeof_T T) (arr_shape res)) /\
  (forall axes_ inorm nthreads,
     genuine_hartley in_ axes_ inorm PyNone nthreads = Ok res ->
     exists T, arr_dtype in_ = Real T /\ arr_dtype res = Real T /\
       arr_shape res = arr_shape in_ /\
       arr_strides res = c_strides (sizeof_T T) (arr_shape res)).
Proof.
  split; [|split; [|split; [|split; [|split]]]].
  - intros axes_ forward inorm nthreads H.
    unfold c2c in H; destruct (kind_is_c (arr_dtype in_)).
    + apply DISPATCH_complex_inv in H as (T & HT & H); exists T.
      split; [now right|]; unfold c2c_internal, copy_shape in H.
      new_output H.
    + apply DISPATCH_real_inv in H as (T & HT & H); exists T.
      split; [now left|]; unfold c2c_sym_internal, copy_shape in H.
      new_output H.
  - intros axes_ forward inorm nthreads H.
    apply DISPATCH_real_inv in H as (T & HT & H); exists T.
    split; [exact HT|]; unfold r2c_internal in H; new_output H.
  - intros axes_ lastsize forward inorm nthreads H.
    apply DISPATCH_complex_inv in H as (T & HT & H); exists T.
    split; [exact HT|]; unfold c2r_internal in H; new_output H.
  - intros axes_ real2hermitian forward inorm nthreads H.
    apply DISPATCH_real_inv in H as (T & HT & H); exists T.
    split; [exact HT|]; unfold r2r_fftpack_internal, copy_shape in H.
    new_output H.
  - intros axes_ inorm nthreads H.
    apply DISPATCH_real_inv in H as (T & HT & H); exists T.
    split; [exact HT|]; unfold separable_hartley_internal, copy_shape in H.
    new_output H.
  - intros axes_ inorm nthreads H.
    unfold genuine_hartley in H.
    apply bind_ok_inv in H as (tmp & _ & H).
    apply DISPATCH_real_inv in H as (T & HT & H); exists T.
    split; [exact HT|]; unfold complex2hartley, copy_shape in H.
    new_output H.
Qed.

Lemma allocated_result_layout_witness :
  exists res,
    @separable_hartley toy toy_real234 (PyList [1]) 1 PyNone 4 = Ok res /\
    arr_shape res = [2; 3; 4] /\ arr_strides res = [96; 32; 8].
Proof.
  eexists; split; [reflexivity|].
  match goal with
  | |- arr_shape ?r = _ /\ _ =>
      destruct (@allocated_result_layout toy toy_real234 r)
        as (_ & _ & _ & _ & Hsep & _)
  end.
  destruct (Hsep (PyList [1]) 1 4 eq_refl) as (T & HT & _ & Hshape & Hstr).
  inversion HT; subst T; split; [exact Hshape|exact Hstr].
Defined.

(** ** [c2r] and empty axes *)

Lemma resolve_lastsize_ok_inv lastsize n ls :
  0 <= lastsize < size_t_modulus ->
  0 <= n < 2 ^ 63 ->
  resolve_lastsize lastsize n = Ok ls ->
  1 <= n /\ 1 <= ls /\ ls / 2 + 1 = n /\
  (ls = 2 * n - 2 \/ ls = 2 * n - 1) /\
  (lastsize <> 0 -> ls = lastsize).
Proof.
  intros Hl Hn H.
  destruct (Z.eq_dec lastsize 0) as [->|Hne].
  - destruct (Z.eq_dec n 0) as [->|Hn0]; [discriminate H|].
    rewrite resolve_lastsize_inferred in H by lia.
    assert (Els : ls = 2 * n - 1) by congruence; subst ls.
    repeat split; try lia.
    Z.to_euclidean_division_equations; lia.
  - rewrite resolve_lastsize_explicit in H by lia.
    destruct (Z.eqb_spec (lastsize / 2 + 1) n) as [E|E]; [|discriminate].
    assert (Els : ls = lastsize) by congruence; subst ls.
    repeat split; auto; try lia;
      revert E; Z.to_euclidean_division_equations; lia.
Qed.

(** X9. [c2r] and empty axes. If the input is empty along the last
    transformed axis, the call throws "bad lastsize" for every [lastsize],
    the default [0] included (there [2*0 - 1] wraps around in [size_t]). When
    the call returns, the input length [n] on that axis is at least 1 and
    the output length there is at least 1 and is [2*n - 2] or [2*n - 1]: the
    output is never empty along that axis, and an output length of [0]
    cannot be asked for. *)
Theorem c2r_never_empty {P : Platform} T (a : array) d axes_ lastsize forward
  inorm nthreads axes last n :
  arr_payload a = cplx_data T d ->
  makeaxes a axes_ = Ok axes ->
  back axes = Ok last ->
  at_index (arr_shape a) last = Ok n ->
  0 <= n < 2 ^ 63 ->
  0 <= lastsize < size_t_modulus ->
  (n = 0 -> forall out_,
     c2r a axes_ lastsize forward inorm out_ nthreads =
     Throw (runtime_error "bad lastsize")) /\
  (forall out_ res,
     c2r a axes_ lastsize forward inorm out_ nthreads = Ok res -> 1 <= n) /\
  (forall res,
     c2r a axes_ lastsize forward inorm PyNone nthreads = Ok res ->
     exists ls,
       at_index (arr_shape res) last = Ok ls /\ 1 <= ls /\
       (ls = 2 * n - 2 \/ ls = 2 * n - 1) /\
       (lastsize <> 0 -> ls = lastsize)).
Proof.
  intros Hd Hax Hback Hn Hrange Hl.
  pose proof (at_index_inv _ _ _ Hn) as [Hlast _].
  pose proof (fun out_ =>
    c2r_steps T a axes_ lastsize forward inorm out_ nthreads axes last n
      (dtype_of_cplx_data _ _ _ Hd) Hax Hback Hn) as Hsteps.
  split; [|split].
  - intros -> out_; rewrite Hsteps.
    destruct (resolve_lastsize lastsize 0) as [ls|e] eqn:E.
    + apply resolve_lastsize_ok_inv in E; try lia.
    + destruct (Z.eq_dec lastsize 0) as [->|Hne]; [now inversion E|].
      rewrite resolve_lastsize_explicit in E by lia.
      destruct (lastsize / 2 + 1 =? 0); [discriminate|now inversion E].
  - intros out_ res H; rewrite Hsteps in H.
    apply bind_ok_inv in H as (ls & Hls & _).
    now apply resolve_lastsize_ok_inv in Hls.
  - intros res H; rewrite Hsteps in H.
    apply bind_ok_inv in H as (ls & Hls & H).
    apply resolve_lastsize_ok_inv in Hls as (_ & Hls1 & _ & Hls2 & Hls3);
      try assumption.
    cbv zeta in H; unfold prepare_output in H; cbn [is_None bind] in H.
    ok_inv H; inversion H as [Eres]; clear H.
    exists ls; cbn [with_real array_t_new arr_shape].
    split; [|auto].
    rewrite at_index_in_range by (now rewrite length_set_nth).
    now rewrite nth_set_nth_same by lia.
Qed.

Lemma c2r_never_empty_witness :
  @c2r toy toy_cplx20 PyNone 0 true 0 PyNone 1 =
  Throw (runtime_error "bad lastsize") /\
  @c2r toy toy_cplx20 PyNone 1 true 0 PyNone 1 =
  Throw (runtime_error "bad lastsize").
Proof.
  split.
  - destruct (@c2r_never_empty toy Pdouble toy_cplx20 _ PyNone 0 true 0 1
                [0; 1] 1 0 eq_refl eq_refl eq_refl eq_refl
                ltac:(vm_compute; split; [discriminate|reflexivity])
                ltac:(vm_compute; split; [discriminate|reflexivity]))
      as (H & _); now apply H.
  - destruct (@c2r_never_empty toy Pdouble toy_cplx20 _ PyNone 1 true 0 1
                [0; 1] 1 0 eq_refl eq_refl eq_refl eq_refl
                ltac:(vm_compute; split; [discriminate|reflexivity])
                ltac:(vm_compute; split; [discriminate|reflexivity]))
      as (H & _); now apply H.
Defined.

(** ** The folding pass writes every element *)

Lemma fold_combine_diag {A B : Type} (f : A -> B * B -> A) (L : list B) m :
  fold_left f (combine L L) m = fold_left (fun m p => f m (p, p)) L m.
Proof.
  revert m; induction L as [|p L IH]; intros m; simpl; auto.
Qed.

Section HartleyFold.

Context {P : Platform}.
Variables (atmp : arr_info) (dt : cmem) (aout : arr_info) (rev : list bool).

Let off (p : list Z) : Z := offset (ai_stride aout) p.
Let mir (p : list Z) : list Z := mirror (ai_shape aout) rev p.
Let valid (p : list Z) : Prop := in_box (ai_shape aout) p.
Let plus (p : list Z) : scalar :=
  s_add (fst (dt (offset (ai_stride atmp) p)))
        (snd (dt (offset (ai_stride atmp) p))).
Let minus (p : list Z) : scalar :=
  s_sub (fst (dt (offset (ai_stride atmp) p)))
        (snd (dt (offset (ai_stride atmp) p))).

Hypothesis rev_length : length rev = length (ai_shape aout).
Hypothesis offsets_distinct :
  forall p q, valid p -> valid q -> off p = off q -> p = q.

(** After the indices of [L] have been visited with both iterators at the
    same index, an element whose index or whose mirror index is in [L]
    holds a sum or a difference taken from the spectrum, and every other
    element holds what it held at the start. *)
Lemma hartley_fold_written L m0 :
  (forall p, In p L -> valid p) ->
  let m := fold_left (fun m p => hartley_step atmp dt aout rev m (p, p)) L m0 in
  (forall q, valid q -> In q L \/ In (mir q) L ->
     (In q L /\ m (off q) = plus q) \/
     (In (mir q) L /\ m (off q) = minus (mir q))) /\
  (forall q, valid q -> ~ In q L -> ~ In (mir q) L -> m (off q) = m0 (off q)).
Proof.
  induction L as [|p L IH] using rev_ind; intros Hval.
  - split; simpl; [intros q _ [[]|[]] | reflexivity].
  - assert (HvalL : forall q, In q L -> valid q)
      by (intros q Hq; apply Hval, in_or_app; now left).
    assert (Hp : valid p) by (apply Hval, in_or_app; right; now left).
    destruct (IH HvalL) as (I1 & I2); clear IH.
    rewrite fold_left_app; cbn [fold_left].
    set (m := fold_left _ L m0) in *.
    unfold hartley_step; cbn [fst snd].
    fold (off p) (mir p) (off (mir p)) (plus p) (minus p).
    assert (Hmp : valid (mir p)) by now apply mirror_in_box.
    split.
    + intros q Hq Hin.
      destruct (Z.eq_dec (off q) (off (mir p))) as [E|E].
      * rewrite E, store_same; right.
        apply offsets_distinct in E; auto; subst q.
        unfold mir; rewrite mirror_involutive by assumption.
        split; [apply in_or_app; right; now left | reflexivity].
      * rewrite store_other by assumption.
        destruct (Z.eq_dec (off q) (off p)) as [E'|E'].
        -- rewrite E', store_same; left.
           apply offsets_distinct in E'; auto; subst q.
           split; [apply in_or_app; right; now left | reflexivity].
        -- rewrite store_other by assumption.
           assert (Hq1 : q <> p) by (intros ->; now apply E').
           assert (Hq2 : mir q <> p).
           { intros Em; apply E; rewrite <- Em; unfold mir.
             now rewrite mirror_involutive. }
           assert (Hin' : In q L \/ In (mir q) L).
           { destruct Hin as [H|H]; apply in_app_or in H as [H|[H|[]]];
               auto; congruence. }
           destruct (I1 q Hq Hin') as [[H1 H2]|[H1 H2]]; [left|right];
             (split; [apply in_or_app; now left | exact H2]).
    + intros q Hq Hn1 Hn2.
      rewrite !store_other; [apply I2; auto| |].
      * intros H; apply Hn1, in_or_app; now left.
      * intros H; apply Hn2, in_or_app; now left.
      * intros E; apply offsets_distinct in E; auto; subst q.
        apply Hn1, in_or_app; right; now left.
      * intros E; apply offsets_distinct in E; auto; subst q.
        apply Hn2, in_or_app; right; left.
        unfold mir; now rewrite mirror_involutive.
Qed.

End HartleyFold.

(** X10. With no [out] given, [genuine_hartley] (when the mode is valid
    and the kernel returns) returns an array of the input's shape in which
    every element has been written by the folding pass: the element at an
    index [q] is [re + im] of the spectrum element at [q], or [re - im] of
    the spectrum element at the mirror index of [q]. Nothing of what the new
    buffer held before the pass is left in the result. *)
Theorem genuine_hartley_overwrites_output {P : Platform} T (in_ : array) d_in
  axes_ inorm nthreads axes last n fct K :
  arr_payload in_ = real_data T d_in ->
  makeaxes in_ axes_ = Ok axes ->
  back axes = Ok last ->
  at_index (arr_shape in_) last = Ok n ->
  0 <= n < 2 ^ 63 ->
  norm_fct inorm (arr_shape in_) axes = Ok fct ->
  0 < sizeof_T T ->
  let dims := arr_shape in_ in
  let shp := set_nth dims (Z.to_nat last) (n / 2 + 1) in
  let tmp_strides := c_strides (2 * sizeof_T T) shp in
  let out_strides := c_strides (sizeof_T T) dims in
  let rev := rev_axes (length dims) axes in
  pocketfft_r2c T dims (arr_strides in_) tmp_strides axes true d_in
    (uninit_cplx T shp) fct nthreads = Ok K ->
  exists d,
    genuine_hartley in_ axes_ inorm PyNone nthreads =
    Ok (mk_array dims out_strides (real_data T d)) /\
    forall q, in_box dims q ->
      let v := K (offset tmp_strides q) in
      let w := K (offset tmp_strides (mirror dims rev q)) in
      (in_box shp q /\
       d (offset out_strides q) = s_add (fst v) (snd v)) \/
      (in_box shp (mirror dims rev q) /\
       d (offset out_strides q) = s_sub (fst w) (snd w)).
Proof.
  intros Hd Hax Hback Hn Hrange Hfct Hsz dims shp tmp_strides out_strides rev
    Hk.
  pose proof (at_index_inv _ _ _ Hn) as [Hlast Hnth].
  fold dims in Hlast, Hnth.
  set (tmp := mk_array shp tmp_strides (cplx_data T K)).
  assert (Hr2c : r2c in_ axes_ true inorm PyNone nthreads = Ok tmp)
    by now apply (r2c_allocating T in_ d_in axes_ true inorm nthreads axes
                    last n fct K).
  pose proof (complex2hartley_pass T in_ tmp K axes_ PyNone axes last
                (array_t_new (Real T) dims) (uninit_real T dims) n
                eq_refl Hax Hback eq_refl (real_view_new T dims) Hn) as Hpass.
  cbv zeta in Hpass.
  cbn [arr_shape arr_strides tmp array_t_new itemsize] in Hpass.
  fold shp out_strides rev in Hpass.
  rewrite Nat.eqb_refl, fold_combine_diag in Hpass.
  eexists; split.
  - unfold genuine_hartley; rewrite Hr2c; cbn [bind].
    rewrite (DISPATCH_real _ T _ (dtype_of_real_data _ _ _ Hd)).
    rewrite Hpass; reflexivity.
  - intros q Hq v w.
    assert (Hpos : 0 < nth (Z.to_nat last) dims 0)
      by (apply (in_box_positive dims q); [assumption|lia]).
    destruct (hartley_fold_written (mk_arr_info shp tmp_strides) K
                (mk_arr_info dims out_strides) rev
                (length_rev_axes _ _)
                ltac:(intros p r Hp Hr; cbn [ai_stride ai_shape] in *;
                      unfold out_strides;
                      apply c_strides_distinct; auto; lia)
                (positions shp) (uninit_real T dims)) as (Hw & _).
    { intros p Hp; apply in_positions in Hp; cbn [ai_shape].
      apply (half_in_box dims (Z.to_nat last)); [lia| |assumption].
      now rewrite <- Hnth. }
    cbn [ai_shape ai_stride] in Hw.
    destruct (Hw q Hq) as [[H1 H2]|[H1 H2]].
    + rewrite !in_positions; unfold shp; rewrite Hnth.
      apply half_covers; auto; [apply length_rev_axes|lia|].
      apply back_is_reflected; auto.
    + left; split; [now apply in_positions|exact H2].
    + right; split; [now apply in_positions|exact H2].
Qed.

Lemma genuine_hartley_overwrites_output_witness :
  exists d,
    @genuine_hartley toy toy_real4 PyNone 0 PyNone 1 =
    Ok (@mk_array toy [4] [8] (@real_data toy Pdouble d)) /\
    (d 24 = 20 + 3 \/ d 24 = 20 - 3).
Proof.
  destruct (@genuine_hartley_overwrites_output toy Pdouble toy_real4 _ PyNone
              0 1 [0] 0 4 fct_one _ eq_refl eq_refl eq_refl eq_refl
              ltac:(vm_compute; split; [discriminate|reflexivity])
              eq_refl eq_refl eq_refl) as (d & Hcall & Hval).
  exists d; split; [exact Hcall|].
  destruct (Hval [3] ltac:(repeat constructor; vm_compute; discriminate))
    as [[Hbox _]|[_ H]].
  - exfalso; inversion Hbox as [|? ? ? ? Hi]; subst.
    vm_compute in Hi; destruct Hi as [_ Hi]; discriminate Hi.
  - right; exact H.
Defined.

(** ** What the second-half loop leaves alone *)

(** [c2c] on a real input, step by step, once every stage has succeeded. *)
Lemma c2c_sym_run {P : Platform} T (in_ : array) d_in axes_ forward inorm
  out_ nthreads axes last n res0 d0 fct K :
  arr_payload in_ = real_data T d_in ->
  makeaxes in_ axes_ = Ok axes ->
  back axes = Ok last ->
  at_index (arr_shape in_) last = Ok n ->
  prepare_output (Complex T) out_ (arr_shape in_) = Ok res0 ->
  cplx_view T res0 = Ok d0 ->
  norm_fct inorm (arr_shape in_) axes = Ok fct ->
  pocketfft_r2c T (arr_shape in_) (arr_strides in_) (arr_strides res0) axes
    forward d_in d0 fct nthreads = Ok K ->
  c2c in_ axes_ forward inorm out_ nthreads =
  Ok (with_cplx res0 T
        (fold_left
           (fill_step (mk_arr_info (arr_shape in_) (arr_strides res0))
              (rev_axes (length (arr_shape in_)) axes))
           (positions (set_nth (arr_shape in_) (Z.to_nat last) (n / 2 + 1)))
           K)).
Proof.
  intros Hdata Hax Hback Hn Hprep Hview Hfct Hk.
  pose proof (at_index_inv _ _ _ Hn) as [Hlast _].
  unfold c2c; rewrite (dtype_of_real_data _ _ _ Hdata); simpl kind_is_c.
  cbv iota; rewrite (DISPATCH_real _ T _ (dtype_of_real_data _ _ _ Hdata)).
  unfold c2c_sym_internal, copy_shape, copy_strides.
  rewrite Hax; cbn [bind]; rewrite Hprep; cbn [bind].
  rewrite (real_view_data _ _ _ Hdata); cbn [bind].
  rewrite Hview; cbn [bind]; rewrite Hfct; cbn [bind].
  rewrite Hk; cbn [bind].
  unfold rev_iter_new; cbn [ai_shape].
  rewrite Hback; cbn [bind]; rewrite Hn; cbn [bind].
  rewrite set_index_in_range by assumption; cbn [bind].
  unfold remaining at 1; cbn [ri_todo]; rewrite Nat2Z.id.
  rewrite fill_second_half_run by lia; reflexivity.
Qed.

(** X11. What the second-half loop of [c2c] on a real input changes: in a
    new output, every element outside the forward half (the indices with
    at most [n/2] on the last listed axis) ends as the conjugate of what the
    kernel wrote at its mirror index, and an element of the forward half
    whose mirror index lies outside it is left exactly as the kernel wrote
    it. *)
Theorem c2c_fill_frame {P : Platform} T (in_ : array) d_in axes_ forward
  inorm nthreads axes last n fct K :
  arr_payload in_ = real_data T d_in ->
  makeaxes in_ axes_ = Ok axes ->
  back axes = Ok last ->
  at_index (arr_shape in_) last = Ok n ->
  norm_fct inorm (arr_shape in_) axes = Ok fct ->
  (forall x : scalar, s_neg (s_neg x) = x) ->
  0 < sizeof_T T ->
  let dims := arr_shape in_ in
  let shp := set_nth dims (Z.to_nat last) (n / 2 + 1) in
  let strides := c_strides (2 * sizeof_T T) dims in
  let rev := rev_axes (length dims) axes in
  pocketfft_r2c T dims (arr_strides in_) strides axes forward d_in
    (uninit_cplx T dims) fct nthreads = Ok K ->
  exists d,
    c2c in_ axes_ forward inorm PyNone nthreads =
    Ok (mk_array dims strides (cplx_data T d)) /\
    forall q, in_box dims q ->
      (~ in_box shp q ->
       d (offset strides q) = conj (K (offset strides (mirror dims rev q)))) /\
      (in_box shp q -> ~ in_box shp (mirror dims rev q) ->
       d (offset strides q) = K (offset strides q)).
Proof.
  intros Hd Hax Hback Hn Hfct Hneg Hsz dims shp strides rev Hk.
  pose proof (at_index_inv _ _ _ Hn) as [Hlast Hnth].
  fold dims in Hlast, Hnth.
  eexists; split.
  - apply (c2c_sym_run T in_ d_in axes_ forward inorm PyNone nthreads axes
             last n (array_t_new (Complex T) dims) (uninit_cplx T dims) fct K);
      auto; apply cplx_view_new.
  - intros q Hq.
    assert (Hpos : 0 < nth (Z.to_nat last) dims 0)
      by (apply (in_box_positive dims q); [assumption|lia]).
    cbn [array_t_new arr_strides itemsize]; fold dims strides rev shp.
    destruct (fill_invariant_holds (mk_arr_info dims strides) rev
                (length_rev_axes _ _) Hneg
                ltac:(intros p r Hp Hr; cbn [ai_stride ai_shape] in *;
                      unfold strides;
                      apply c_strides_distinct; auto; lia)
                (positions shp) K (NoDup_positions shp))
      as (I1 & _ & I3).
    { intros p Hp; apply in_positions in Hp; cbn [ai_shape].
      apply (half_in_box dims (Z.to_nat last)); [lia| |assumption].
      now rewrite <- Hnth. }
    cbn [ai_shape ai_stride] in I1, I3.
    assert (Hmq : in_box dims (mirror dims rev q))
      by (apply mirror_in_box; [apply length_rev_axes|assumption]).
    assert (Hinv : mirror dims rev (mirror dims rev q) = q)
      by (apply mirror_involutive; [apply length_rev_axes|assumption]).
    split.
    + intros Hout.
      assert (Hin : in_box shp (mirror dims rev q)).
      { destruct (half_covers dims rev (Z.to_nat last) q) as [H|H];
          auto; try (rewrite <- Hnth in H; fold shp in H; tauto).
        - apply length_rev_axes.
        - lia.
        - apply back_is_reflected; auto. }
      assert (Hne : mirror dims rev (mirror dims rev q) <> mirror dims rev q).
      { rewrite Hinv; intros E; apply Hout; now rewrite E. }
      pose proof (I1 (mirror dims rev q) (proj2 (in_positions _ _) Hin) Hne)
        as E.
      rewrite Hinv in E; rewrite E; f_equal.
      apply I3; auto; rewrite Hinv; now rewrite in_positions.
    + intros Hin Hout; apply I3; auto; now rewrite in_positions.
Qed.

Lemma c2c_fill_frame_witness :
  exists d,
    @c2c toy toy_real4 PyNone true 0 PyNone 1 =
    Ok (@mk_array toy [4] [16] (@cplx_data toy Pdouble d)) /\
    d 48 = (20, -3) /\ d 16 = (20, 3).
Proof.
  destruct (@c2c_fill_frame toy Pdouble toy_real4 _ PyNone true 0 1 [0] 0 4
              fct_one _ eq_refl eq_refl eq_refl eq_refl eq_refl
              Z.opp_involutive eq_refl eq_refl) as (d & Hcall & Hval).
  exists d; split; [exact Hcall|split].
  - destruct (Hval [3] ltac:(repeat constructor; vm_compute; discriminate))
      as [H _].
    apply H; intros Hbox; inversion Hbox as [|? ? ? ? Hi]; subst.
    vm_compute in Hi; destruct Hi as [_ Hi]; discriminate Hi.
  - destruct (Hval [1] ltac:(repeat constructor; vm_compute; discriminate))
      as [_ H].
    apply H; [repeat constructor; vm_compute; discriminate|].
    intros Hbox; inversion Hbox as [|? ? ? ? Hi]; subst.
    vm_compute in Hi; destruct Hi as [_ Hi]; discriminate Hi.
Defined.
